(** * intuitv-watch: playback and session telemetry

    A shallow embedding of [src/shared/api/analyticsClient.ts] (the telemetry
    transport, the analytics client and the live-stats channel) and of the
    session, heartbeat and fault-recovery logic of
    [src/components/WebPlayer.tsx], followed by the properties established
    about them.

    Conventions.
    - JavaScript values are the inductive type [JS.value]; [null] is the
      transport's "unavailable" result, exactly as in the source.
    - Numbers are rationals ([Q]): every finite double is a rational, and
      [Math.floor] is [Qfloor].  [NaN], the infinities and rounding of
      double arithmetic are outside the model.  Epoch milliseconds
      ([Date.now()]) and counts are integers ([Z]).
    - Code that can throw, logs, reads the clock or draws random numbers
      runs in the monad [Analytics.M]: state passing over a [world], with an
      explicit [Thrown] outcome and a [try_catch] combinator.
    - The live-stats channel and the player are event-driven: each is a
      state, a [step] function per event (socket events, <video> events,
      hls.js events, time passing, unmount) and a [run] over event lists.
      The player's state carries what React keeps between renders (hook
      values, each effect's last dependencies and cleanup) and what the page
      keeps (the clock, the armed interval timers, the requests in flight);
      a step returns the calls made on collaborators, stamped with the
      time.

    The definitions come first; the properties follow in [ClientProps],
    [ChannelProps] and [PlayerProps], and further ones in [ClientMore],
    [ChannelMore], [ControlsProps] and [PlayerMore]. *)

From Stdlib Require Import ZArith QArith Qround Bool String List Lia Lqa
  DecimalString DecimalZ.
Import ListNotations.

Local Open Scope string_scope.
Local Open Scope Z_scope.
Set Warnings "-register-all".

(** ** JavaScript values *)

Module JS.

Inductive value : Type :=
| Undefined
| Null
| Bool (b : bool)
| Num (q : Q)
| Str (s : string)
| Arr (items : list value)
| Obj (fields : list (string * value)).

(** [ToBoolean]: what [!data] and [data?.success || false] test. *)
Definition truthy (v : value) : bool :=
  match v with
  | Undefined | Null => false
  | Bool b => b
  | Num q => negb (Qeq_bool q 0)
  | Str s => negb (String.eqb s "")
  | Arr _ | Obj _ => true
  end.

(** Own-property lookup in an object literal or parsed JSON object. *)
Fixpoint lookup (k : string) (fields : list (string * value)) : value :=
  match fields with
  | [] => Undefined
  | (k', v) :: rest => if String.eqb k k' then v else lookup k rest
  end.

(** [v?.k] *)
Definition opt_get (v : value) (k : string) : value :=
  match v with
  | Obj fields => lookup k fields
  | _ => Undefined
  end.

(** [a || b] *)
Definition or_else (a b : value) : value := if truthy a then a else b.

Definition is_string (v : value) : bool :=
  match v with Str _ => true | _ => false end.
Definition is_number (v : value) : bool :=
  match v with Num _ => true | _ => false end.
Definition is_boolean (v : value) : bool :=
  match v with Bool _ => true | _ => false end.
(** An optional member [k?: T] is absent or a [T]. *)
Definition optional (is_T : value -> bool) (v : value) : bool :=
  match v with Undefined => true | _ => is_T v end.

(** Template-literal conversion of integral numbers. *)
Definition string_of_Z (z : Z) : string := NilZero.string_of_int (Z.to_int z).
Definition string_of_nat (n : nat) : string := string_of_Z (Z.of_nat n).

End JS.

Import JS.

(** ** The interfaces of analyticsClient.ts, as predicates on values *)

Module Types.

Definition field (is_T : value -> bool) (k : string) (v : value) : bool :=
  is_T (opt_get v k).

Definition is_object (v : value) : bool :=
  match v with Obj _ => true | _ => false end.

Definition StreamInfo (v : value) : bool :=
  is_object v
  && field is_string "stream_url" v
  && field is_string "title" v
  && field is_string "description" v
  && field is_string "channel" v
  && field (optional is_string) "thumbnail" v
  && field (optional is_number) "duration" v
  && field is_boolean "live" v.

Definition Recommendation (v : value) : bool :=
  is_object v
  && field is_string "id" v
  && field is_string "title" v
  && field is_string "thumbnail" v
  && field is_number "duration" v
  && field is_string "channel" v
  && field is_number "views" v.

Definition Recommendations (v : value) : bool :=
  match v with
  | Arr items => forallb Recommendation items
  | _ => false
  end.

Definition ViewerStats (v : value) : bool :=
  is_object v
  && field is_number "current_viewers" v
  && field is_number "total_views" v
  && field is_number "avg_watch_time" v
  && field is_number "engagement_rate" v.

Definition WatchSession (v : value) : bool :=
  is_object v
  && field is_string "session_id" v
  && field is_string "content_id" v
  && field is_number "start_time" v
  && field is_number "last_heartbeat" v.

Record SessionMetadata : Type := {
  device_type : string;
  platform : string;
  browser : string;
  screen_resolution : string;
}.

Definition metadata_value (m : SessionMetadata) : value :=
  Obj [("device_type", Str (device_type m));
       ("platform", Str (platform m));
       ("browser", Str (browser m));
       ("screen_resolution", Str (screen_resolution m))].

End Types.

(** ** analyticsClient.ts *)

Module Analytics.

(** *** The platform: network, clock, console, random numbers *)

Record RequestInit : Type := {
  method : option string;
  (** the value handed to [JSON.stringify] for the request body *)
  body : option value;
  headers : list (string * string);
}.

Record request : Type := {
  url : string;
  init : RequestInit;
}.

(** What the global [fetch] does with a request: the promise rejects, or it
    resolves to a response with a status and a body on which [json()]
    either yields a value or rejects ([None]). *)
Inductive reply : Type :=
| Rejects (reason : string)
| Responds (status : Z) (json : option value).

Inductive diag : Type :=
| Warn (msg : string)
| Error (msg : string) (detail : string).

Inductive exn : Type :=
| TypeError (msg : string)
| SyntaxError (msg : string).

Definition exn_message (e : exn) : string :=
  match e with TypeError m => m | SyntaxError m => m end.

Record world : Type := {
  NEXT_PUBLIC_API_URL : option string;   (* process.env *)
  network : request -> reply;
  latency : request -> N;                (* milliseconds until it settles *)
  clock : Z;                             (* Date.now() *)
  random : nat -> Q;                     (* successive Math.random() draws *)
  draws : nat;
  console : list diag;
}.

Definition set_clock (t : Z) (w : world) : world :=
  {| NEXT_PUBLIC_API_URL := NEXT_PUBLIC_API_URL w; network := network w;
     latency := latency w; clock := t; random := random w;
     draws := draws w; console := console w |}.

Definition set_draws (n : nat) (w : world) : world :=
  {| NEXT_PUBLIC_API_URL := NEXT_PUBLIC_API_URL w; network := network w;
     latency := latency w; clock := clock w; random := random w;
     draws := n; console := console w |}.

Definition set_console (c : list diag) (w : world) : world :=
  {| NEXT_PUBLIC_API_URL := NEXT_PUBLIC_API_URL w; network := network w;
     latency := latency w; clock := clock w; random := random w;
     draws := draws w; console := c |}.

(** *** The monad *)

Inductive outcome (A : Type) : Type :=
| Returned (a : A)
| Thrown (e : exn).
Arguments Returned {A} a.
Arguments Thrown {A} e.

Definition M (A : Type) : Type := world -> outcome A * world.

Definition ret {A} (a : A) : M A := fun w => (Returned a, w).
Definition throw {A} (e : exn) : M A := fun w => (Thrown e, w).

Definition bind {A B} (c : M A) (k : A -> M B) : M B :=
  fun w =>
    match c w with
    | (Returned a, w') => k a w'
    | (Thrown e, w') => (Thrown e, w')
    end.

Definition try_catch {A} (c : M A) (handler : exn -> M A) : M A :=
  fun w =>
    match c w with
    | (Returned a, w') => (Returned a, w')
    | (Thrown e, w') => handler e w'
    end.

Notation "x <- c ;; k" := (bind c (fun x => k))
  (at level 61, c at next level, right associativity).
Notation "c ;;; k" := (bind c (fun _ => k))
  (at level 61, right associativity).

Definition Date_now : M Z := fun w => (Returned (clock w), w).

Definition Math_random : M Q :=
  fun w => (Returned (random w (draws w)), set_draws (S (draws w)) w).

Definition console_warn (msg : string) : M unit :=
  fun w => (Returned tt, set_console (console w ++ [Warn msg]) w).

Definition console_error (msg detail : string) : M unit :=
  fun w => (Returned tt, set_console (console w ++ [Error msg detail]) w).

Record Response : Type := {
  status : Z;
  json_body : option value;
}.

Definition ok (r : Response) : bool := (200 <=? status r) && (status r <=? 299).

(** [await fetch(url, init)] *)
Definition global_fetch (u : string) (i : RequestInit) : M Response :=
  fun w =>
    let rq := {| url := u; init := i |} in
    let w' := set_clock (clock w + Z.of_N (latency w rq)) w in
    match network w rq with
    | Rejects reason => (Thrown (TypeError reason), w')
    | Responds st b => (Returned {| status := st; json_body := b |}, w')
    end.

(** [await response.json()] *)
Definition response_json (r : Response) : M value :=
  match json_body r with
  | Some v => ret v
  | None => throw (SyntaxError "Unexpected token in JSON")
  end.

(** [process.env.NEXT_PUBLIC_API_URL || 'https://api.intuitv.app'] *)
Definition api_url (w : world) : string :=
  match NEXT_PUBLIC_API_URL w with
  | Some s => if String.eqb s "" then "https://api.intuitv.app" else s
  | None => "https://api.intuitv.app"
  end.

Definition API_URL : M string := fun w => (Returned (api_url w), w).

(** *** WatchAnalyticsClient *)

(** [{ 'Content-Type': 'application/json', ...options?.headers }] listed with
    the later, overriding entries first. *)
Definition merged_init (options : option RequestInit) : RequestInit :=
  match options with
  | Some o =>
      {| method := method o; body := body o;
         headers := headers o ++ [("Content-Type", "application/json")] |}
  | None =>
      {| method := None; body := None;
         headers := [("Content-Type", "application/json")] |}
  end.

Definition fetch (endpoint : string) (options : option RequestInit) : M value :=
  try_catch
    (base <- API_URL ;;
     response <- global_fetch (base ++ endpoint) (merged_init options) ;;
     if negb (ok response) then
       console_warn ("Watch API warning: " ++ string_of_Z (status response)
                       ++ " " ++ endpoint) ;;;
       ret Null
     else
       response_json response)
    (fun error =>
       console_error ("Watch API error: " ++ endpoint) (exn_message error) ;;;
       ret Null).

Definition post (payload : value) : option RequestInit :=
  Some {| method := Some "POST"; body := Some payload; headers := [] |}.

Definition stream_fallback : value :=
  Obj [("stream_url", Str "https://cdn.intuitv.app/stream/demo.m3u8");
       ("title", Str "IntuiTV Live Stream");
       ("description", Str "AI-powered personalized television");
       ("channel", Str "IntuiTV Main");
       ("live", Bool true);
       ("thumbnail", Str "https://cdn.intuitv.app/thumbs/live.jpg")].

Definition getStreamInfo (contentId : string) : M value :=
  data <- fetch ("/watch/stream/" ++ contentId) None ;;
  if negb (truthy data) then ret stream_fallback else ret data.

Definition titles : list string :=
  ["AI Generated Space Documentary"; "Futuristic City Tour";
   "Ocean Wildlife Special"; "Tech Innovation Series";
   "Cultural Heritage Journey"; "Science Explained Simply";
   "Adventure Travel Show"; "Music & Art Fusion"].

Definition channels : list string :=
  ["IntuiTV Docs"; "IntuiTV Travel"; "IntuiTV Science"; "IntuiTV Culture";
   "IntuiTV Entertainment"].

(** [arr[i]] on an array of strings *)
Definition index (arr : list string) (i : nat) : value :=
  match nth_error arr i with
  | Some s => Str s
  | None => Undefined
  end.

Definition floorQ (q : Q) : value := Num (inject_Z (Qfloor q)).

(** [Array.from({ length: n }, (_, i) => f(i))], the callback running for
    i = 0, 1, ..., n-1 in that order. *)
Fixpoint Array_from_at (start n : nat) (f : nat -> M value) : M (list value) :=
  match n with
  | O => ret []
  | S n' =>
      v <- f start ;;
      rest <- Array_from_at (S start) n' f ;;
      ret (v :: rest)
  end.

(** [ToLength] of an integral number: negatives clamp to 0. *)
Definition ToLength (z : Z) : nat := Z.to_nat z.

Definition mock_recommendation (i : nat) : M value :=
  r1 <- Math_random ;;
  r2 <- Math_random ;;
  ret (Obj [("id", Str ("rec-" ++ string_of_nat i));
            ("title", index titles (i mod length titles));
            ("thumbnail",
             Str ("https://cdn.intuitv.app/thumbs/rec-" ++ string_of_nat i ++ ".jpg"));
            ("duration", floorQ (300 + r1 * 600));
            ("channel", index channels (i mod length channels));
            ("views", floorQ (10000 + r2 * 90000))]).

Definition getMockRecommendations (limit : Z) : M value :=
  items <- Array_from_at 0 (ToLength (Z.min limit 8)) mock_recommendation ;;
  ret (Arr items).

Definition recommendations_endpoint (userId : option string) (limit : Z) : string :=
  match userId with
  | Some u =>
      if String.eqb u "" then
        "/watch/recommendations?limit=" ++ string_of_Z limit
      else
        "/watch/recommendations?user_id=" ++ u ++ "&limit=" ++ string_of_Z limit
  | None => "/watch/recommendations?limit=" ++ string_of_Z limit
  end.

Definition limit_or_default (limit : option Z) : Z :=
  match limit with Some l => l | None => 5 end.

(** [userId?: string], [limit: number = 5]; [limit] is an item count and is
    modelled as an integer. *)
Definition getRecommendations (userId : option string) (limit : option Z) : M value :=
  let limit := limit_or_default limit in
  data <- fetch (recommendations_endpoint userId limit) None ;;
  if negb (truthy data) then getMockRecommendations limit else ret data.

Definition getViewerStats (contentId : string) : M value :=
  data <- fetch ("/watch/stats/" ++ contentId) None ;;
  if negb (truthy data) then
    r1 <- Math_random ;;
    r2 <- Math_random ;;
    r3 <- Math_random ;;
    r4 <- Math_random ;;
    ret (Obj [("current_viewers", floorQ (10000 + r1 * 5000));
              ("total_views", floorQ (500000 + r2 * 100000));
              ("avg_watch_time", Num ((42 # 10) + r3 * 2));
              ("engagement_rate", Num ((75 # 100) + r4 * (2 # 10)))])
  else ret data.

Definition num_of_Z (z : Z) : value := Num (inject_Z z).

Definition session_start_body (contentId sessionId : string)
    (metadata : option Types.SessionMetadata) (timestamp : Z) : value :=
  Obj [("content_id", Str contentId);
       ("session_id", Str sessionId);
       ("metadata",
        match metadata with
        | Some m => Types.metadata_value m
        | None => Undefined
        end);
       ("timestamp", num_of_Z timestamp)].

Definition startSession (contentId sessionId : string)
    (metadata : option Types.SessionMetadata) : M value :=
  timestamp <- Date_now ;;
  data <- fetch "/watch/session/start"
            (post (session_start_body contentId sessionId metadata timestamp)) ;;
  if negb (truthy data) then
    t1 <- Date_now ;;
    t2 <- Date_now ;;
    ret (Obj [("session_id", Str sessionId);
              ("content_id", Str contentId);
              ("start_time", num_of_Z t1);
              ("last_heartbeat", num_of_Z t2)])
  else ret data.

Definition sendHeartbeat (sessionId : string) (currentTime : Z) : M value :=
  timestamp <- Date_now ;;
  data <- fetch "/watch/session/heartbeat"
            (post (Obj [("session_id", Str sessionId);
                        ("current_time", num_of_Z currentTime);
                        ("timestamp", num_of_Z timestamp)])) ;;
  ret (or_else (opt_get data "success") (Bool false)).

Definition endSession (sessionId : string) (watchTime : Z) : M value :=
  timestamp <- Date_now ;;
  data <- fetch "/watch/session/end"
            (post (Obj [("session_id", Str sessionId);
                        ("watch_time", num_of_Z watchTime);
                        ("timestamp", num_of_Z timestamp)])) ;;
  ret (or_else (opt_get data "success") (Bool false)).

Inductive interaction : Type := like | share | comment.

Definition interaction_name (a : interaction) : string :=
  match a with like => "like" | share => "share" | comment => "comment" end.

Definition recordInteraction (sessionId : string) (action : interaction) : M value :=
  timestamp <- Date_now ;;
  data <- fetch "/watch/interaction"
            (post (Obj [("session_id", Str sessionId);
                        ("action", Str (interaction_name action));
                        ("timestamp", num_of_Z timestamp)])) ;;
  ret (or_else (opt_get data "success") (Bool false)).

(** *** Vocabulary for the transport's contract *)

(** The request [fetch endpoint options] puts on the wire. *)
Definition request_for (endpoint : string) (options : option RequestInit)
    (w : world) : request :=
  {| url := api_url w ++ endpoint; init := merged_init options |}.

(** Network failure, non-2xx status, or a body that does not parse. *)
Definition transport_failed (r : reply) : bool :=
  match r with
  | Rejects _ => true
  | Responds st None => true
  | Responds st (Some _) => negb ((200 <=? st) && (st <=? 299))
  end.

(** What [fetch] hands back, read off the network's reply. *)
Definition transport_value (r : reply) : value :=
  match r with
  | Responds st (Some payload) => if transport_failed r then Null else payload
  | _ => Null
  end.

(** The world once the request has settled. *)
Definition settled (w : world) (rq : request) : world :=
  set_clock (clock w + Z.of_N (latency w rq)) w.

(** The three read operations, by name. *)
Inductive read_op : Type :=
| GetStreamInfo (contentId : string)
| GetRecommendations (userId : option string) (limit : option Z)
| GetViewerStats (contentId : string).

Definition read (op : read_op) : M value :=
  match op with
  | GetStreamInfo c => getStreamInfo c
  | GetRecommendations u l => getRecommendations u l
  | GetViewerStats c => getViewerStats c
  end.

Definition read_endpoint (op : read_op) : string :=
  match op with
  | GetStreamInfo c => "/watch/stream/" ++ c
  | GetRecommendations u l => recommendations_endpoint u (limit_or_default l)
  | GetViewerStats c => "/watch/stats/" ++ c
  end.

(** The declared result type of each read. *)
Definition read_type (op : read_op) : value -> bool :=
  match op with
  | GetStreamInfo _ => Types.StreamInfo
  | GetRecommendations _ _ => Types.Recommendations
  | GetViewerStats _ => Types.ViewerStats
  end.

End Analytics.

(** ** The live-stats channel ([connectToLiveStats]) *)

Module LiveStats.

(** [WebSocket.readyState] *)
Inductive ReadyState : Type := CONNECTING | OPEN | CLOSING | CLOSED.

Definition ReadyState_eqb (a b : ReadyState) : bool :=
  match a, b with
  | CONNECTING, CONNECTING | OPEN, OPEN | CLOSING, CLOSING | CLOSED, CLOSED => true
  | _, _ => false
  end.

(** The platform functions the channel relies on: [JSON.parse] ([None] when
    it throws) and whether [new WebSocket(url)] accepts the URL (it throws a
    SyntaxError otherwise). *)
Record platform : Type := {
  JSON_parse : string -> option value;
  accepts_url : string -> bool;
}.

Record channel : Type := {
  (** [ws.readyState]; [None] when the constructor threw and the no-op
      unsubscribe was returned *)
  socket : option ReadyState;
  (** the arguments of the [onUpdate] calls made so far, oldest first *)
  delivered : list value;
  console : list Analytics.diag;
}.

(** [s.replace(pat, by)]: the first occurrence only. *)
Definition replace_first (pat by_ s : string) : string :=
  match String.index 0 pat s with
  | Some n =>
      String.substring 0 n s ++ by_
        ++ String.substring (n + String.length pat)
             (String.length s - (n + String.length pat)) s
  | None => s
  end.

Definition stats_url (api_url contentId : string) : string :=
  replace_first "http" "ws" api_url ++ "/ws/watch/stats/" ++ contentId.

Definition connectToLiveStats (pf : platform) (api_url contentId : string) : channel :=
  if accepts_url pf (stats_url api_url contentId) then
    {| socket := Some CONNECTING; delivered := []; console := [] |}
  else
    {| socket := None; delivered := [];
       console := [Analytics.Error "WebSocket connection error:" "SyntaxError"] |}.

(** [ws.onmessage] *)
Definition onmessage (pf : platform) (data : string) (c : channel) : channel :=
  match JSON_parse pf data with
  | Some stats =>
      {| socket := socket c; delivered := delivered c ++ [stats];
         console := console c |}
  | None =>
      {| socket := socket c; delivered := delivered c;
         console := console c
                      ++ [Analytics.Error "WebSocket message parse error:" data] |}
  end.

(** [ws.onerror] *)
Definition onerror (c : channel) : channel :=
  {| socket := socket c; delivered := delivered c;
     console := console c ++ [Analytics.Error "WebSocket error:" "Event"] |}.

Definition set_socket (r : ReadyState) (c : channel) : channel :=
  {| socket := Some r; delivered := delivered c; console := console c |}.

(** The function returned to the subscriber. *)
Definition unsubscribe (c : channel) : channel :=
  match socket c with
  | Some r => if ReadyState_eqb r OPEN then set_socket CLOSING c else c
  | None => c
  end.

(** What can happen to a channel: the socket's own events, delivered by the
    browser, and the subscriber calling [unsubscribe()].  The browser
    dispatches [message] events only while the socket is OPEN. *)
Inductive event : Type :=
| Opened
| Message (data : string)
| Errored
| Closed
| Unsubscribe.

Definition step (pf : platform) (c : channel) (e : event) : channel :=
  match e, socket c with
  | Opened, Some CONNECTING => set_socket OPEN c
  | Message data, Some OPEN => onmessage pf data c
  | Errored, Some CLOSED => c
  | Errored, Some _ => onerror c
  | Closed, Some _ => set_socket CLOSED c
  | Unsubscribe, _ => unsubscribe c
  | _, _ => c
  end.

Definition run (pf : platform) (c : channel) (es : list event) : channel :=
  fold_left (step pf) es c.

(** A socket that will never again be OPEN. *)
Definition winding_down (c : channel) : Prop :=
  socket c = None \/ socket c = Some CLOSING \/ socket c = Some CLOSED.

End LiveStats.

(** ** WebPlayer.tsx: session, heartbeat and fault recovery *)

Module WebPlayer.

Import Types.
Local Open Scope list_scope.

(** [Hls.ErrorTypes] of hls.js *)
Inductive ErrorTypes : Type :=
| NETWORK_ERROR | MEDIA_ERROR | KEY_SYSTEM_ERROR | MUX_ERROR | OTHER_ERROR.

Record ErrorData : Type := {
  fatal : bool;
  type : ErrorTypes;
}.

Record props : Type := {
  contentId : Z;
  videoUrl : string;
  autoplay : bool;
  (** whether the optional [onEnded] callback was supplied *)
  has_onEnded : bool;
}.

(** What the component reads from the browser when it needs it. *)
Record host : Type := {
  userAgent : string;
  screen_width : Z;
  screen_height : Z;
  Hls_isSupported : bool;
  canPlayType_hls : bool;
  (** [Math.random().toString(36).substr(2, 9)] at mount *)
  random_suffix : string;
}.

(** Calls the component makes on its collaborators. *)
Inductive call : Type :=
| startSession (contentId sessionId : string) (metadata : SessionMetadata)
| sendHeartbeat (sessionId : string) (currentTime : Z)
| endSession (sessionId : string) (watchTime : Z)
| onEnded
| hls_loadSource (url : string)
| hls_attachMedia
| hls_startLoad
| hls_recoverMediaError
| hls_destroy
| video_set_src (url : string)
| video_play.

(** A trace lists the calls with the [Date.now()] at which each was made. *)
Definition trace : Type := list (Z * call).

(** An armed [setInterval] timer: its handle, when it next fires, and what
    its callback closed over. *)
Record timer : Type := {
  handle : nat;
  due : Z;
  closure_sessionId : string;
  closure_currentTime : Q;
}.

Record state : Type := {
  (* the page *)
  now : Z;
  timers : list timer;
  next_handle : nat;
  (** analytics calls whose promise has not settled yet *)
  in_flight : list call;
  (* useState / useRef *)
  playing : bool;
  currentTime : Q;
  sessionId : string;
  sessionStarted : bool;
  startTimeRef : Z;
  (* what React keeps per effect: last dependencies, cleanup *)
  mounted : bool;
  hls_attached : bool;
  hls_cleanup : bool;
  session_deps : option (bool * bool * Z * string);
  heartbeat_deps : option (bool * Q * string);
  heartbeat_cleanup : option nat;
}.

Definition with_page (t : Z) (ts : list timer) (n : nat) (fl : list call)
    (s : state) : state :=
  {| now := t; timers := ts; next_handle := n; in_flight := fl;
     playing := playing s; currentTime := currentTime s;
     sessionId := sessionId s; sessionStarted := sessionStarted s;
     startTimeRef := startTimeRef s; mounted := mounted s;
     hls_attached := hls_attached s; hls_cleanup := hls_cleanup s;
     session_deps := session_deps s; heartbeat_deps := heartbeat_deps s;
     heartbeat_cleanup := heartbeat_cleanup s |}.

Definition with_hooks (p : bool) (ct : Q) (started : bool) (start : Z)
    (s : state) : state :=
  {| now := now s; timers := timers s; next_handle := next_handle s;
     in_flight := in_flight s;
     playing := p; currentTime := ct;
     sessionId := sessionId s; sessionStarted := started;
     startTimeRef := start; mounted := mounted s;
     hls_attached := hls_attached s; hls_cleanup := hls_cleanup s;
     session_deps := session_deps s; heartbeat_deps := heartbeat_deps s;
     heartbeat_cleanup := heartbeat_cleanup s |}.

Definition with_effects (m att : bool)
    (sd : option (bool * bool * Z * string)) (hd : option (bool * Q * string))
    (hc : option nat) (s : state) : state :=
  {| now := now s; timers := timers s; next_handle := next_handle s;
     in_flight := in_flight s;
     playing := playing s; currentTime := currentTime s;
     sessionId := sessionId s; sessionStarted := sessionStarted s;
     startTimeRef := startTimeRef s; mounted := m;
     hls_attached := att; hls_cleanup := hls_cleanup s;
     session_deps := sd; heartbeat_deps := hd;
     heartbeat_cleanup := hc |}.

Definition setPlaying (b : bool) (s : state) : state :=
  with_hooks b (currentTime s) (sessionStarted s) (startTimeRef s) s.
Definition setCurrentTime (t : Q) (s : state) : state :=
  with_hooks (playing s) t (sessionStarted s) (startTimeRef s) s.
Definition setSessionStarted (b : bool) (s : state) : state :=
  with_hooks (playing s) (currentTime s) b (startTimeRef s) s.
Definition set_startTimeRef (t : Z) (s : state) : state :=
  with_hooks (playing s) (currentTime s) (sessionStarted s) t s.

(** Issuing an analytics call: the request leaves now and stays in flight
    until its promise settles; the component awaits none of them. *)
Definition issue (c : call) (s : state) : state :=
  with_page (now s) (timers s) (next_handle s) (in_flight s ++ [c]) s.

(** *** The page's timers *)

Definition HEARTBEAT_MS : Z := 30000.

Definition setInterval (sid : string) (ct : Q) (s : state) : nat * state :=
  let h := next_handle s in
  (h, with_page (now s)
        (timers s ++ [{| handle := h; due := now s + HEARTBEAT_MS;
                         closure_sessionId := sid; closure_currentTime := ct |}])
        (S h) (in_flight s) s).

Definition clearInterval (h : nat) (s : state) : state :=
  with_page (now s)
    (filter (fun t => negb (Nat.eqb (handle t) h)) (timers s))
    (next_handle s) (in_flight s) s.

(** The heartbeat timer's callback. *)
Definition heartbeat_call (t : timer) : call :=
  sendHeartbeat (closure_sessionId t) (Qfloor (closure_currentTime t)).

(** How often a timer fires up to and including [target]. *)
Definition firings (target : Z) (t : timer) : nat :=
  if due t <=? target then S (Z.to_nat ((target - due t) / HEARTBEAT_MS)) else O.

Fixpoint ticks (n : nat) (from : Z) : list Z :=
  match n with
  | O => []
  | S n' => from :: ticks n' (from + HEARTBEAT_MS)
  end.

Definition timer_trace (target : Z) (t : timer) : trace :=
  map (fun at_ => (at_, heartbeat_call t)) (ticks (firings target t) (due t)).

Definition rearm (target : Z) (t : timer) : timer :=
  {| handle := handle t;
     due := due t + Z.of_nat (firings target t) * HEARTBEAT_MS;
     closure_sessionId := closure_sessionId t;
     closure_currentTime := closure_currentTime t |}.

(** Callbacks run in the order of their due times; timers due at the same
    instant run in the order they were armed. *)
Fixpoint insert_by_time (x : Z * call) (l : trace) : trace :=
  match l with
  | [] => [x]
  | y :: l' => if fst x <=? fst y then x :: l else y :: insert_by_time x l'
  end.

Definition by_time (l : trace) : trace := fold_right insert_by_time [] l.

(** [ms] milliseconds pass with nothing else happening. *)
Definition elapse (ms : N) (s : state) : state * trace :=
  let target := now s + Z.of_N ms in
  let fired := by_time (flat_map (timer_trace target) (timers s)) in
  (with_page target (map (rearm target) (timers s)) (next_handle s)
     (in_flight s ++ map snd fired) s,
   fired).

(** *** The effects *)

Definition deps_session_eqb (a b : bool * bool * Z * string) : bool :=
  let '(p1, s1, c1, i1) := a in
  let '(p2, s2, c2, i2) := b in
  Bool.eqb p1 p2 && Bool.eqb s1 s2 && Z.eqb c1 c2 && String.eqb i1 i2.

Definition deps_heartbeat_eqb (a b : bool * Q * string) : bool :=
  let '(p1, t1, i1) := a in
  let '(p2, t2, i2) := b in
  Bool.eqb p1 p2 && Qeq_bool t1 t2 && String.eqb i1 i2.

Definition changed {D} (eqb : D -> D -> bool) (last : option D) (cur : D) : bool :=
  match last with
  | Some d => negb (eqb d cur)
  | None => true
  end.

Definition session_metadata (b : host) : SessionMetadata :=
  {| device_type := "desktop";
     platform := "web";
     browser := userAgent b;
     screen_resolution :=
       (string_of_Z (screen_width b) ++ "x" ++ string_of_Z (screen_height b))%string |}.

(** "Start Analytics Session": the effect body, run against the values of
    the render [r] that scheduled it.  The flag reports a state change that
    makes React render again. *)
Definition session_effect (P : props) (B : host) (r s : state)
    : state * trace * bool :=
  if playing r && negb (sessionStarted r) then
    let c := startSession (string_of_Z (contentId P)) (sessionId r)
               (session_metadata B) in
    (issue c (set_startTimeRef (now s) (setSessionStarted true s)),
     [(now s, c)], true)
  else (s, [], false).

(** "Heartbeat (every 30s)": the effect body; it returns the cleanup. *)
Definition heartbeat_effect (r s : state) : state * option nat :=
  if negb (playing r) then (s, None)
  else
    let '(h, s') := setInterval (sessionId r) (currentTime r) s in
    (s', Some h).

Definition run_heartbeat_cleanup (s : state) : state :=
  match heartbeat_cleanup s with
  | Some h => clearInterval h s
  | None => s
  end.

(** One commit of a render [r]: the cleanups of the effects whose
    dependencies changed, then their bodies, in declaration order. *)
Definition commit (P : props) (B : host) (r : state) : state * trace * bool :=
  let sd := (playing r, sessionStarted r, contentId P, sessionId r) in
  let hd := (playing r, currentTime r, sessionId r) in
  let run_s := changed deps_session_eqb (session_deps r) sd in
  let run_h := changed deps_heartbeat_eqb (heartbeat_deps r) hd in
  let s1 := if run_h then run_heartbeat_cleanup r else r in
  let '(s2, tr, dirty) :=
    if run_s then session_effect P B r s1 else (s1, [], false) in
  let '(s3, hc) :=
    if run_h then heartbeat_effect r s2 else (s2, heartbeat_cleanup s2) in
  (with_effects (mounted s3) (hls_attached s3)
     (if run_s then Some sd else session_deps r)
     (if run_h then Some hd else heartbeat_deps r)
     hc s3,
   tr, dirty).

(** Render and commit until no effect has changed the state. *)
Fixpoint flush (fuel : nat) (P : props) (B : host) (s : state) : state * trace :=
  let '(s', tr, dirty) := commit P B s in
  if dirty then
    match fuel with
    | O => (s', tr)
    | S fuel' => let '(s'', tr') := flush fuel' P B s' in (s'', tr ++ tr')
    end
  else (s', tr).

Definition RERENDERS : nat := 8.

Definition render (P : props) (B : host) (s : state) : state * trace :=
  flush RERENDERS P B s.

(** *** Event handlers *)

(** [hls.on(Hls.Events.ERROR, ...)] *)
Definition on_hls_error (data : ErrorData) : list call :=
  if fatal data then
    match type data with
    | NETWORK_ERROR => [hls_startLoad]
    | MEDIA_ERROR => [hls_recoverMediaError]
    | _ => [hls_destroy]
    end
  else [].

Definition stamp (t : Z) (cs : list call) : trace := map (fun c => (t, c)) cs.

Definition handlePlay (s : state) : state := setPlaying true s.

Definition handlePause (s : state) : state := setPlaying false s.

(** [setCurrentTime(videoRef.current.currentTime)] *)
Definition handleTimeUpdate (video_currentTime : Q) (s : state) : state :=
  setCurrentTime video_currentTime s.

Definition handleEnded (P : props) (s : state) : state * trace :=
  let s1 := setPlaying false s in
  let watchTime := (now s - startTimeRef s) / 1000 in
  let c := endSession (sessionId s) watchTime in
  (issue c s1,
   (now s, c) :: (if has_onEnded P then [(now s, onEnded)] else [])).

Inductive event : Type :=
(* the <video> element *)
| Play
| Pause
| TimeUpdate (video_currentTime : Q)
| Ended
(* hls.js *)
| ManifestParsed
| HlsError (data : ErrorData)
(* the page *)
| Elapse (ms : N)
| Settle (i : nat)
| Unmount.

Definition remove_nth {A} (i : nat) (l : list A) : list A :=
  firstn i l ++ skipn (S i) l.

Definition then_render (P : props) (B : host) (st : state * trace)
    : state * trace :=
  let '(s, tr) := st in
  let '(s', tr') := render P B s in
  (s', tr ++ tr').

Definition destroys (cs : list call) : bool :=
  existsb (fun c => match c with hls_destroy => true | _ => false end) cs.

Definition step (P : props) (B : host) (s : state) (e : event) : state * trace :=
  match e with
  | Elapse ms => elapse ms s
  | Settle i =>
      (with_page (now s) (timers s) (next_handle s)
         (remove_nth i (in_flight s)) s, [])
  | Play =>
      if mounted s then then_render P B (handlePlay s, []) else (s, [])
  | Pause =>
      if mounted s then then_render P B (handlePause s, []) else (s, [])
  | TimeUpdate t =>
      if mounted s then then_render P B (handleTimeUpdate t s, []) else (s, [])
  | Ended =>
      if mounted s then then_render P B (handleEnded P s) else (s, [])
  | ManifestParsed =>
      if hls_attached s && autoplay P then (s, [(now s, video_play)]) else (s, [])
  | HlsError data =>
      if hls_attached s then
        let cs := on_hls_error data in
        (with_effects (mounted s) (negb (destroys cs)) (session_deps s)
           (heartbeat_deps s) (heartbeat_cleanup s) s,
         stamp (now s) cs)
      else (s, [])
  | Unmount =>
      if mounted s then
        let s1 := run_heartbeat_cleanup s in
        (with_effects false false (session_deps s1) (heartbeat_deps s1) None s1,
         if hls_cleanup s then [(now s, hls_destroy)] else [])
      else (s, [])
  end.

Fixpoint run (P : props) (B : host) (s : state) (es : list event)
    : state * trace :=
  match es with
  | [] => (s, [])
  | e :: es' =>
      let '(s1, tr1) := step P B s e in
      let '(s2, tr2) := run P B s1 es' in
      (s2, tr1 ++ tr2)
  end.

(** [generateSessionId()] *)
Definition generateSessionId (B : host) (t : Z) : string :=
  ("session-" ++ string_of_Z t ++ "-" ++ random_suffix B)%string.

(** Mounting at [Date.now() = t0]: initial state, then the first commit
    (HLS setup, and the first run of the two analytics effects). *)
Definition mount (P : props) (B : host) (t0 : Z) : state * trace :=
  let hls := Hls_isSupported B in
  let s0 :=
    {| now := t0; timers := []; next_handle := 1; in_flight := [];
       playing := false; currentTime := 0;
       sessionId := generateSessionId B t0;
       sessionStarted := false; startTimeRef := 0;
       mounted := true; hls_attached := hls; hls_cleanup := hls;
       session_deps := None; heartbeat_deps := None;
       heartbeat_cleanup := None |} in
  let setup :=
    if hls then [(t0, hls_loadSource (videoUrl P)); (t0, hls_attachMedia)]
    else if canPlayType_hls B then [(t0, video_set_src (videoUrl P))]
    else [] in
  then_render P B (s0, setup).

(** A mounted player receiving the events [es]. *)
Definition session (P : props) (B : host) (t0 : Z) (es : list event)
    : state * trace :=
  let '(s0, tr0) := mount P B t0 in
  let '(s, tr) := run P B s0 es in
  (s, tr0 ++ tr).

(** *** Observations on traces and states *)

Definition is_startSession (c : call) : bool :=
  match c with startSession _ _ _ => true | _ => false end.
Definition is_sendHeartbeat (c : call) : bool :=
  match c with sendHeartbeat _ _ => true | _ => false end.
Definition is_endSession (c : call) : bool :=
  match c with endSession _ _ => true | _ => false end.

Definition calls (tr : trace) : list call := map snd tr.
Definition startSession_calls (tr : trace) : list call :=
  filter is_startSession (calls tr).
Definition heartbeats (tr : trace) : list call :=
  filter is_sendHeartbeat (calls tr).
Definition endSession_calls (tr : trace) : list call :=
  filter is_endSession (calls tr).

Definition is_Play (e : event) : bool :=
  match e with Play => true | _ => false end.
Definition is_Unmount (e : event) : bool :=
  match e with Unmount => true | _ => false end.
Definition play_or_pause (e : event) : bool :=
  match e with Play | Pause => true | _ => false end.

(** Heartbeat requests currently in flight. *)
Definition heartbeats_in_flight (s : state) : nat :=
  length (filter is_sendHeartbeat (in_flight s)).

(** Whether some [Play] reaches the component, i.e. arrives before any
    [Unmount]. *)
Fixpoint plays_mounted (m : bool) (es : list event) : bool :=
  match es with
  | [] => false
  | e :: es' => (m && is_Play e) || plays_mounted (m && negb (is_Unmount e)) es'
  end.

Definition elapsed_by (e : event) : Z :=
  match e with Elapse ms => Z.of_N ms | _ => 0 end.

Definition only_heartbeats (tr : trace) : Prop :=
  Forall (fun x => is_sendHeartbeat (snd x) = true) tr.

(** Normal playback as the component sees it: time passes, then the video
    element reports its new position. *)
Definition playback (l : list (N * Q)) : list event :=
  flat_map (fun x => [Elapse (fst x); TimeUpdate (snd x)]) l.

(** Every report comes less than 30 s after the previous one and carries a
    position different from the previous one. *)
Fixpoint advancing (from : Q) (l : list (N * Q)) : Prop :=
  match l with
  | [] => True
  | (ms, t) :: l' => (Z.of_N ms < HEARTBEAT_MS) /\ ~ t == from /\ advancing t l'
  end.

(** *** Vocabulary for the invariants *)

Definition current_session_deps (P : props) (s : state) : bool * bool * Z * string :=
  (playing s, sessionStarted s, contentId P, sessionId s).

(** The session effect runs and finds its condition true. *)
Definition session_fires (P : props) (s : state) : bool :=
  changed deps_session_eqb (session_deps s) (current_session_deps P s)
  && playing s && negb (sessionStarted s).

Definition start_call (P : props) (B : host) (s : state) : call :=
  startSession (string_of_Z (contentId P)) (sessionId s) (session_metadata B).

Definition handles (s : state) : list nat := map handle (timers s).

(** The handles the pending heartbeat cleanup will clear. *)
Definition cleanup_handles (s : state) : list nat :=
  match heartbeat_cleanup s with Some h => [h] | None => [] end.

(** Same state as far as the hooks other than the session flag go. *)
Definition same_view (s s' : state) : Prop :=
  now s' = now s /\ playing s' = playing s /\ currentTime s' = currentTime s
  /\ sessionId s' = sessionId s /\ mounted s' = mounted s
  /\ hls_attached s' = hls_attached s /\ hls_cleanup s' = hls_cleanup s.

Definition recorded (P : props) (s : state) : Prop :=
  session_deps s = Some (current_session_deps P s).
Definition idle_paused (s : state) : Prop :=
  sessionStarted s = false -> playing s = false.
Definition owned (s : state) : Prop := handles s = cleanup_handles s.
Definition detached (s : state) : Prop := mounted s = false -> timers s = [].

Definition Inv (P : props) (s : state) : Prop :=
  recorded P s /\ idle_paused s /\ owned s /\ detached s.

(** Mounted, never played: no session, no timer. *)
Definition idle (P : props) (s : state) : Prop :=
  mounted s = true /\ playing s = false /\ sessionStarted s = false
  /\ session_deps s = Some (false, false, contentId P, sessionId s)
  /\ (exists ct, heartbeat_deps s = Some (false, ct, sessionId s))
  /\ heartbeat_cleanup s = None /\ timers s = [].

(** Playing, with one heartbeat timer armed that fires at [d]. *)
Definition armed (P : props) (d : Z) (s : state) : Prop :=
  mounted s = true /\ playing s = true /\ sessionStarted s = true
  /\ session_deps s = Some (true, true, contentId P, sessionId s)
  /\ (exists ct, heartbeat_deps s = Some (true, ct, sessionId s) /\ ct == currentTime s)
  /\ (exists tm, timers s = [tm] /\ heartbeat_cleanup s = Some (handle tm) /\ due tm = d).

End WebPlayer.

(** ** Sample inputs *)

Module Samples.

(** The watch page's player: [contentId = 1], a completion callback. *)
Definition page_props : WebPlayer.props :=
  {| WebPlayer.contentId := 1;
     WebPlayer.videoUrl := "https://cdn.intuitv.app/streams/discovery-s2e3/playlist.m3u8";
     WebPlayer.autoplay := false;
     WebPlayer.has_onEnded := true |}.

Definition desktop : WebPlayer.host :=
  {| WebPlayer.userAgent := "Mozilla/5.0";
     WebPlayer.screen_width := 1920;
     WebPlayer.screen_height := 1080;
     WebPlayer.Hls_isSupported := true;
     WebPlayer.canPlayType_hls := false;
     WebPlayer.random_suffix := "k3x9q2m1p" |}.

(** A world whose network rejects every request. *)
Definition offline : Analytics.world :=
  {| Analytics.NEXT_PUBLIC_API_URL := None;
     Analytics.network := fun _ => Analytics.Rejects "Failed to fetch";
     Analytics.latency := fun _ => 20%N;
     Analytics.clock := 1700000000000;
     Analytics.random := fun _ => 1 # 2;
     Analytics.draws := 0;
     Analytics.console := [] |}.

(** A platform on which the only well-formed message is the empty object. *)
Definition tiny_json : LiveStats.platform :=
  {| LiveStats.JSON_parse :=
       fun data => if String.eqb data "{}" then Some (Obj []) else None;
     LiveStats.accepts_url := fun _ => true |}.

End Samples.

(** ** The client's operations, by name *)

Module ClientOps.

Import Analytics.

Inductive operation : Type :=
| OpStreamInfo (contentId : string)
| OpRecommendations (userId : option string) (limit : option Z)
| OpViewerStats (contentId : string)
| OpStartSession (contentId sessionId : string)
    (metadata : option Types.SessionMetadata)
| OpSendHeartbeat (sessionId : string) (currentTime : Z)
| OpEndSession (sessionId : string) (watchTime : Z)
| OpRecordInteraction (sessionId : string) (action : interaction).

Definition perform (op : operation) : M value :=
  match op with
  | OpStreamInfo c => getStreamInfo c
  | OpRecommendations u l => getRecommendations u l
  | OpViewerStats c => getViewerStats c
  | OpStartSession c s m => startSession c s m
  | OpSendHeartbeat s t => sendHeartbeat s t
  | OpEndSession s t => endSession s t
  | OpRecordInteraction s a => recordInteraction s a
  end.

Definition endpoint_of (op : operation) : string :=
  match op with
  | OpStreamInfo c => "/watch/stream/" ++ c
  | OpRecommendations u l => recommendations_endpoint u (limit_or_default l)
  | OpViewerStats c => "/watch/stats/" ++ c
  | OpStartSession _ _ _ => "/watch/session/start"
  | OpSendHeartbeat _ _ => "/watch/session/heartbeat"
  | OpEndSession _ _ => "/watch/session/end"
  | OpRecordInteraction _ _ => "/watch/interaction"
  end.

(** The options an operation passes to [fetch] when [Date.now()] is
    [timestamp] at the call. *)
Definition options_of (op : operation) (timestamp : Z) : option RequestInit :=
  match op with
  | OpStreamInfo _ | OpRecommendations _ _ | OpViewerStats _ => None
  | OpStartSession c s m => post (session_start_body c s m timestamp)
  | OpSendHeartbeat s t =>
      post (Obj [("session_id", Str s);
                 ("current_time", num_of_Z t);
                 ("timestamp", num_of_Z timestamp)])
  | OpEndSession s t =>
      post (Obj [("session_id", Str s);
                 ("watch_time", num_of_Z t);
                 ("timestamp", num_of_Z timestamp)])
  | OpRecordInteraction s a =>
      post (Obj [("session_id", Str s);
                 ("action", Str (interaction_name a));
                 ("timestamp", num_of_Z timestamp)])
  end.

(** The request an operation puts on the wire in world [w]. *)
Definition request_of (op : operation) (w : world) : request :=
  request_for (endpoint_of op) (options_of op (clock w)) w.

(** The commands whose result is [data?.success || false]. *)
Definition is_command (op : operation) : bool :=
  match op with
  | OpSendHeartbeat _ _ | OpEndSession _ _ | OpRecordInteraction _ _ => true
  | _ => false
  end.

(** [Math.random()] yields numbers in [0, 1). *)
Definition unit_draws (w : world) : Prop :=
  forall n, (0 <= random w n)%Q /\ (random w n < 1)%Q.

(** Same clock, console and random source: at most draws were consumed. *)
Definition local_step (w w' : world) : Prop :=
  clock w' = clock w /\ console w' = console w /\ random w' = random w.

(** The shape of a fallback recommendation: everything but the two random
    numbers is fixed by the index. *)
Definition recommendation_entry (i : nat) (duration views : Z) : value :=
  Obj [("id", Str ("rec-" ++ string_of_nat i));
       ("title", index titles (i mod length titles));
       ("thumbnail",
        Str ("https://cdn.intuitv.app/thumbs/rec-" ++ string_of_nat i ++ ".jpg"));
       ("duration", Num (inject_Z duration));
       ("channel", index channels (i mod length channels));
       ("views", Num (inject_Z views))].

(** A member that holds an integral number within bounds. *)
Definition integer_between (lo hi : Z) (v : value) : Prop :=
  exists z, v = Num (inject_Z z) /\ lo <= z <= hi.


End ClientOps.

(** ** Vocabulary for the channel's traffic *)

Module Traffic.

Import LiveStats.
Local Open Scope list_scope.

(** Events the server side causes on an open socket that leave it open. *)
Definition inbound (e : event) : bool :=
  match e with Message _ | Errored => true | _ => false end.

(** The updates a stretch of events carries, in order of arrival. *)
Definition parsed (pf : platform) (es : list event) : list value :=
  flat_map (fun e => match e with
                     | Message data =>
                         match JSON_parse pf data with Some v => [v] | None => [] end
                     | _ => []
                     end) es.

(** How many of the events get logged: malformed messages and errors. *)
Definition logged (pf : platform) (es : list event) : nat :=
  length (filter (fun e => match e with
                           | Message data =>
                               match JSON_parse pf data with Some _ => false | None => true end
                           | Errored => true
                           | _ => false
                           end) es).

(** A platform whose [WebSocket] constructor insists on a [ws:] or [wss:]
    address, as browsers do, and on which the only well-formed message is
    the empty object. *)
Definition ws_only : platform :=
  {| JSON_parse := fun data => if String.eqb data "{}" then Some (Obj []) else None;
     accepts_url := fun url => String.prefix "ws" url |}.

End Traffic.

(** ** WebPlayer.tsx: the transport controls *)

Module Controls.

Local Open Scope list_scope.

(** The attributes of the <video> element that the volume controls write. *)
Record video : Type := {
  el_volume : Q;
  el_muted : bool;
}.

(** The [useState] cells behind the control bar. *)
Record panel : Type := {
  volume : Q;
  muted : bool;
}.

(** [useState(1)], [useState(false)]; a fresh element plays at full volume. *)
Definition initial_panel : panel := {| volume := 1; muted := false |}.
Definition initial_video : video := {| el_volume := 1; el_muted := false |}.

(** The [volume] setter of a media element accepts numbers in [0, 1] and
    throws an IndexSizeError otherwise. *)
Definition accepts_volume (v : Q) : bool := Qle_bool 0 v && Qle_bool v 1.

Inductive setting : Type :=
| Done (el : option video) (p : panel)
| IndexSizeError.

(** [videoRef.current] is [None] while no element is attached. *)
Definition toggleMute (el : option video) (p : panel) : option video * panel :=
  match el with
  | None => (None, p)
  | Some e =>
      (Some {| el_volume := el_volume e; el_muted := negb (muted p) |},
       {| volume := volume p; muted := negb (muted p) |})
  end.

Definition handleVolumeChange (newVolume : Q) (el : option video) (p : panel)
    : setting :=
  match el with
  | None => Done None p
  | Some e =>
      if accepts_volume newVolume then
        Done (Some {| el_volume := newVolume; el_muted := el_muted e |})
             {| volume := newVolume; muted := Qeq_bool newVolume 0 |}
      else IndexSizeError
  end.

(** What the control bar shows: the muted glyph
    ([muted || volume === 0]) and the volume slider ([muted ? 0 : volume]). *)
Definition shows_muted (p : panel) : bool := muted p || Qeq_bool (volume p) 0.
Definition slider_value (p : panel) : Q := if muted p then 0 else volume p.

(** Whether the element emits no sound. *)
Definition silent (e : video) : bool := el_muted e || Qeq_bool (el_volume e) 0.

(** The user's actions on the volume controls.  A handler that throws
    leaves the element and the state as they were. *)
Inductive control : Type :=
| VolumeChange (v : Q)
| ToggleMute.

Definition apply (st : option video * panel) (c : control) : option video * panel :=
  match c with
  | VolumeChange v =>
      match handleVolumeChange v (fst st) (snd st) with
      | Done el p => (el, p)
      | IndexSizeError => st
      end
  | ToggleMute => toggleMute (fst st) (snd st)
  end.

Definition operate (st : option video * panel) (cs : list control)
    : option video * panel :=
  fold_left apply cs st.

(** *** formatTime *)

(** Truncation toward zero, and JavaScript's remainder [x % m], which takes
    the sign of [x]. *)
Definition Qtrunc (x : Q) : Z := if Qle_bool 0 x then Qfloor x else Qceiling x.
Definition Qrem (x m : Q) : Q := x - m * inject_Z (Qtrunc (x / m)).

Fixpoint zeros (n : nat) : string :=
  match n with
  | O => EmptyString
  | S n' => ("0" ++ zeros n')%string
  end.

(** [s.padStart(n, '0')] *)
Definition padStart0 (n : nat) (s : string) : string :=
  (zeros (n - String.length s) ++ s)%string.

(** [formatTime]; the numbers are printed as plain digits, which is what
    JavaScript does below 1e21. *)
Definition formatTime (seconds : Q) : string :=
  let mins := Qfloor (seconds / 60) in
  let secs := Qfloor (Qrem seconds 60) in
  (string_of_Z mins ++ ":" ++ padStart0 2 (string_of_Z secs))%string.

End Controls.

(** ** Vocabulary for the player's calls and timers *)

Module Beat.

Import WebPlayer.
Local Open Scope list_scope.

(** A call that drives the hls.js pipeline (load, attach, restart, recover)
    or that its manifest event makes on the element; [destroy] apart. *)
Definition uses_pipeline (c : call) : bool :=
  match c with
  | hls_loadSource _ | hls_attachMedia | hls_startLoad | hls_recoverMediaError
  | video_play => true
  | _ => false
  end.

Definition is_Ended (e : event) : bool :=
  match e with Ended => true | _ => false end.

(** The heartbeat effect last ran with [playing = p] and [currentTime = ct],
    and the page's timers are what that run left: one timer, closed over
    the session and [ct] and due within the next 30 s, when it ran playing
    on a mounted player; none otherwise. *)
Definition pulse_at (p : bool) (ct : Q) (s : state) : Prop :=
  heartbeat_deps s = Some (p, ct, sessionId s)
  /\ if mounted s && p
     then exists tm,
            timers s = [tm]
            /\ heartbeat_cleanup s = Some (handle tm)
            /\ closure_sessionId tm = sessionId s
            /\ closure_currentTime tm == ct
            /\ now s < due tm <= now s + HEARTBEAT_MS
     else timers s = [] /\ heartbeat_cleanup s = None.

(** The heartbeat effect is up to date with the state. *)
Definition pulse (s : state) : Prop :=
  exists ct, ct == currentTime s /\ pulse_at (playing s) ct s.

(** Further invariants: no pipeline after unmount; the start instant is
    set only by the session effect and never lies in the future. *)
Definition unplugged (s : state) : Prop :=
  mounted s = false -> hls_attached s = false.
Definition unstarted (s : state) : Prop :=
  sessionStarted s = false -> startTimeRef s = 0.

Definition Sound (P : props) (s : state) : Prop :=
  Inv P s /\ pulse s /\ unplugged s /\ unstarted s.

(** How many [Ended] events reach the component, i.e. arrive before any
    [Unmount]. *)
Fixpoint ended_mounted (m : bool) (es : list event) : nat :=
  match es with
  | [] => O
  | e :: es' =>
      ((if m && is_Ended e then 1 else 0)
       + ended_mounted (m && negb (is_Unmount e)) es')%nat
  end.

(** The calls of a heartbeat timer that fires [n] times from [first] on. *)
Definition beats (sid : string) (position : Q) (n : nat) (first : Z) : trace :=
  map (fun at_ => (at_, sendHeartbeat sid (Qfloor position))) (ticks n first).

(** The trace an event causes in a state satisfying the invariants. *)
Definition caused (P : props) (B : host) (s : state) (e : event) : trace :=
  match e with
  | Play =>
      if mounted s && negb (sessionStarted s) then [(now s, start_call P B s)]
      else []
  | Pause | TimeUpdate _ | Settle _ => []
  | Ended => if mounted s then snd (handleEnded P s) else []
  | ManifestParsed =>
      if hls_attached s && autoplay P then [(now s, video_play)] else []
  | HlsError data =>
      if hls_attached s then stamp (now s) (on_hls_error data) else []
  | Elapse ms => snd (elapse ms s)
  | Unmount =>
      if mounted s && hls_cleanup s then [(now s, hls_destroy)] else []
  end.

End Beat.

(** * Properties of the telemetry transport and the analytics client *)

Module ClientProps.

Import Analytics.
Local Open Scope list_scope.

Lemma fetch_returns (endpoint : string) (options : option RequestInit) (w : world) :
  let rq := request_for endpoint options w in
  exists log,
    fetch endpoint options w
    = (Returned (transport_value (network w rq)),
       set_console (console w ++ log) (settled w rq))
    /\ length log = (if transport_failed (network w rq) then 1 else 0)%nat.
Proof.
  intros rq. unfold fetch, try_catch, bind, API_URL, global_fetch.
  fold (request_for endpoint options w). fold rq.
  destruct (network w rq) as [reason | st [payload|]] eqn:Hr; cbn.
  - eexists; split; [reflexivity | reflexivity].
  - unfold ok; cbn. destruct ((200 <=? st) && (st <=? 299)); cbn.
    + exists []. rewrite app_nil_r. split; [|reflexivity].
      unfold set_console, settled, set_clock; cbn. reflexivity.
    + eexists; split; reflexivity.
  - unfold ok; cbn. destruct ((200 <=? st) && (st <=? 299)); cbn.
    + eexists; split; reflexivity.
    + eexists; split; reflexivity.
Qed.

Lemma failed_value (r : reply) : transport_failed r = true -> transport_value r = Null.
Proof.
  destruct r as [reason | st [payload|]]; cbn; intros H; try reflexivity.
  now rewrite H.
Qed.

Lemma delivered_value (r : reply) :
  transport_failed r = false -> exists st, r = Responds st (Some (transport_value r)).
Proof.
  destruct r as [reason | st [payload|]]; cbn; intros H; try discriminate.
  rewrite H. now exists st.
Qed.

(** C8. The telemetry transport never throws across its boundary: for
    every endpoint, options and world, [fetch] returns normally; when the
    network rejects, the status is not 2xx or the body does not parse, the
    value is [null] and exactly one diagnostic is appended to the console;
    otherwise the value is the response's payload and nothing is logged. *)
Theorem transport_never_throws (endpoint : string) (options : option RequestInit)
    (w : world) :
  exists v w',
    fetch endpoint options w = (Returned v, w')
    /\ if transport_failed (network w (request_for endpoint options w))
       then v = Null /\ exists d, console w' = console w ++ [d]
       else console w' = console w
            /\ exists st,
                 network w (request_for endpoint options w) = Responds st (Some v).
Proof.
  destruct (fetch_returns endpoint options w) as (log & Hrun & Hlen).
  cbv zeta in Hrun, Hlen.
  eexists; eexists; split; [exact Hrun|].
  destruct (transport_failed _) eqn:Hf.
  - split; [now apply failed_value|].
    destruct log as [|d [|? ?]]; try discriminate. now exists d.
  - destruct log; try discriminate. cbn. rewrite app_nil_r.
    split; [reflexivity | now apply delivered_value].
Qed.

(** ** Reads *)

Lemma typed_truthy (op : read_op) (p : value) :
  read_type op p = true -> truthy p = true.
Proof.
  destruct op, p; cbn; try discriminate; reflexivity.
Qed.

Lemma stream_fallback_typed : Types.StreamInfo stream_fallback = true.
Proof. reflexivity. Qed.

Lemma index_in_range (arr : list string) (i : nat) :
  (i < length arr)%nat -> is_string (index arr i) = true.
Proof.
  intros H. unfold index. destruct (nth_error arr i) eqn:E; [reflexivity|].
  apply nth_error_None in E. lia.
Qed.

Lemma mock_recommendation_typed (i : nat) (w : world) :
  exists v w',
    mock_recommendation i w = (Returned v, w') /\ Types.Recommendation v = true.
Proof.
  unfold mock_recommendation, bind, Math_random, ret. cbn -[titles channels Nat.modulo].
  eexists; eexists; split; [reflexivity|].
  unfold Types.Recommendation, Types.field. cbn -[titles channels Nat.modulo].
  rewrite !index_in_range; [reflexivity | |].
  - apply Nat.mod_upper_bound. discriminate.
  - apply Nat.mod_upper_bound. discriminate.
Qed.

Lemma Array_from_at_total (f : nat -> M value) (good : value -> bool) :
  (forall i w, exists v w', f i w = (Returned v, w') /\ good v = true) ->
  forall n start w,
    exists items w',
      Array_from_at start n f w = (Returned items, w')
      /\ length items = n /\ forallb good items = true.
Proof.
  intros Hf. induction n as [|n IH]; intros start w; cbn.
  - exists [], w. repeat split.
  - destruct (Hf start w) as (v & w1 & Hv & Hg).
    destruct (IH (S start) w1) as (rest & w2 & Hrest & Hlen & Hall).
    exists (v :: rest), w2. unfold bind. rewrite Hv, Hrest. cbn.
    rewrite Hg, Hall, Hlen. repeat split.
Qed.

Lemma getMockRecommendations_total (limit : Z) (w : world) :
  exists items w',
    getMockRecommendations limit w = (Returned (Arr items), w')
    /\ length items = Z.to_nat (Z.min limit 8)
    /\ forallb Types.Recommendation items = true.
Proof.
  unfold getMockRecommendations, bind.
  destruct (Array_from_at_total mock_recommendation Types.Recommendation
              mock_recommendation_typed (ToLength (Z.min limit 8)) 0%nat w)
    as (items & w' & Hrun & Hlen & Hall).
  exists items, w'. rewrite Hrun. repeat split; assumption.
Qed.

Lemma getViewerStats_fallback_typed (r1 r2 r3 r4 : Q) :
  Types.ViewerStats
    (Obj [("current_viewers", floorQ (10000 + r1 * 5000));
          ("total_views", floorQ (500000 + r2 * 100000));
          ("avg_watch_time", Num ((42 # 10) + r3 * 2));
          ("engagement_rate", Num ((75 # 100) + r4 * (2 # 10)))]) = true.
Proof. reflexivity. Qed.

(** C6. Every read operation ([getStreamInfo], [getRecommendations],
    [getViewerStats]) returns normally and never returns [null]; when the
    transport returns a payload [p] of the declared type the client returns
    exactly [p], and when the transport reports unavailability ([null], as
    it does on every failure; or any other falsy result) the client returns
    a synthetic value of the declared type. *)
Theorem reads_never_fail (op : read_op) (w : world) :
  exists p w1 v w2,
    fetch (read_endpoint op) None w = (Returned p, w1)
    /\ read op w = (Returned v, w2)
    /\ v <> Null
    /\ (read_type op p = true -> v = p)
    /\ (truthy p = false -> read_type op v = true)
    /\ (transport_failed (network w (request_for (read_endpoint op) None w)) = true ->
        p = Null).
Proof.
  destruct (fetch_returns (read_endpoint op) None w) as (log & Hrun & _).
  cbv zeta in Hrun.
  assert (Hfail : transport_failed
                    (network w (request_for (read_endpoint op) None w)) = true ->
                  transport_value
                    (network w (request_for (read_endpoint op) None w)) = Null)
    by apply failed_value.
  set (p := transport_value _) in *. set (w1 := set_console _ _) in Hrun.
  exists p, w1.
  destruct (truthy p) eqn:Ht.
  - (* the payload is passed through *)
    exists p, w1. split; [exact Hrun|].
    split.
    { destruct op; unfold read, read_endpoint in *;
        unfold getStreamInfo, getRecommendations, getViewerStats, bind;
        rewrite Hrun, Ht; reflexivity. }
    split; [intros ->; discriminate|].
    split; [reflexivity|]. split; [intros H; congruence | exact Hfail].
  - (* the fallback is synthesised *)
    assert (Hnt : forall op', read_type op' p = true -> False).
    { intros op' H. apply typed_truthy in H. congruence. }
    destruct op as [c | u l | c]; unfold read, read_endpoint, read_type in *.
    + exists stream_fallback, w1. split; [exact Hrun|].
      split; [unfold getStreamInfo, bind; rewrite Hrun, Ht; reflexivity|].
      split; [discriminate|].
      split; [intros H; destruct (Hnt (GetStreamInfo c) H)|].
      split; [intros _; exact stream_fallback_typed | exact Hfail].
    + destruct (getMockRecommendations_total (limit_or_default l) w1)
        as (items & w2 & Hm & _ & Hall).
      exists (Arr items), w2. split; [exact Hrun|].
      split; [unfold getRecommendations, bind; rewrite Hrun, Ht; exact Hm|].
      split; [discriminate|].
      split; [intros H; destruct (Hnt (GetRecommendations u l) H)|].
      split; [intros _; exact Hall | exact Hfail].
    + eexists; eexists. split; [exact Hrun|].
      split; [unfold getViewerStats, bind; rewrite Hrun, Ht; cbn; reflexivity|].
      split; [discriminate|].
      split; [intros H; destruct (Hnt (GetViewerStats c) H)|].
      split; [intros _; apply getViewerStats_fallback_typed | exact Hfail].
Qed.


(** ** Session start *)

(** C9. [startSession] never yields failure: it returns normally with a
    truthy value; a failed transport yields [null], and whenever the
    transport's result is unusable (falsy) the value is a synthesized
    WatchSession whose [session_id] and [content_id] are the arguments. *)
Theorem startSession_never_fails (contentId sessionId : string)
    (metadata : option Types.SessionMetadata) (w : world) :
  let options := post (session_start_body contentId sessionId metadata (clock w)) in
  exists p w1 v w2,
    fetch "/watch/session/start"%string options w = (Returned p, w1)
    /\ startSession contentId sessionId metadata w = (Returned v, w2)
    /\ truthy v = true
    /\ (transport_failed (network w (request_for "/watch/session/start"%string options w)) = true ->
        p = Null)
    /\ (truthy p = false ->
        Types.WatchSession v = true
        /\ opt_get v "session_id" = Str sessionId
        /\ opt_get v "content_id" = Str contentId)
    /\ (truthy p = true -> v = p).
Proof.
  intros options.
  destruct (fetch_returns "/watch/session/start"%string options w) as (log & Hrun & _).
  cbv zeta in Hrun.
  set (p := transport_value _) in Hrun. set (w1 := set_console _ _) in Hrun.
  exists p, w1.
  assert (Hfail : transport_failed
                    (network w (request_for "/watch/session/start"%string options w)) = true ->
                  p = Null) by apply failed_value.
  unfold startSession, bind, Date_now. fold options. rewrite Hrun.
  destruct (truthy p) eqn:Ht; cbn.
  - exists p, w1. repeat split; try assumption; try discriminate.
  - eexists; eexists. repeat split; try assumption; try discriminate.
Qed.

(** ** The recommendation fallback *)

(** C10. When the transport is unavailable, [getRecommendations] returns
    an array of exactly min(limit, 8) entries, clamped at 0: 8 entries when
    limit > 8, none when limit <= 0, each with every Recommendation field
    populated. *)
Theorem fallback_recommendations_count (userId : option string) (limit : Z)
    (w : world) :
  transport_failed
    (network w (request_for (recommendations_endpoint userId limit) None w)) = true ->
  exists items w',
    getRecommendations userId (Some limit) w = (Returned (Arr items), w')
    /\ Z.of_nat (length items) = Z.max 0 (Z.min limit 8)
    /\ (8 < limit -> length items = 8%nat)
    /\ (limit <= 0 -> items = [])
    /\ forallb Types.Recommendation items = true.
Proof.
  intros Hfail.
  destruct (fetch_returns (recommendations_endpoint userId limit) None w)
    as (log & Hrun & _).
  cbv zeta in Hrun. rewrite (failed_value _ Hfail) in Hrun.
  set (w1 := set_console _ _) in Hrun.
  destruct (getMockRecommendations_total limit w1) as (items & w2 & Hm & Hlen & Hall).
  exists items, w2.
  split.
  { unfold getRecommendations, bind, limit_or_default. rewrite Hrun. exact Hm. }
  split; [rewrite Hlen; lia|].
  split; [intros H; rewrite Hlen; lia|].
  split; [|exact Hall].
  intros H. destruct items; [reflexivity|]. cbn in Hlen. lia.
Qed.


(** ** Instances *)

Lemma reads_never_fail_witness :
  exists v w',
    read (GetViewerStats "x") Samples.offline = (Returned v, w')
    /\ Types.ViewerStats v = true.
Proof.
  destruct (reads_never_fail (GetViewerStats "x") Samples.offline)
    as (p & w1 & v & w2 & _ & Hr & _ & _ & Hfalsy & Hdown).
  exists v, w2. split; [exact Hr|]. apply Hfalsy.
  rewrite (Hdown eq_refl). reflexivity.
Defined.

Lemma startSession_never_fails_witness :
  exists v w',
    startSession "1" "session-1700000000000-k3x9q2m1p" None Samples.offline
    = (Returned v, w')
    /\ opt_get v "session_id" = Str "session-1700000000000-k3x9q2m1p"
    /\ opt_get v "content_id" = Str "1".
Proof.
  destruct (startSession_never_fails "1" "session-1700000000000-k3x9q2m1p" None
              Samples.offline)
    as (p & w1 & v & w2 & Hf & Hr & _ & Hnull & Hsyn & _).
  exists v, w2. split; [exact Hr|].
  assert (Hp : p = Null) by (apply Hnull; reflexivity).
  subst p. destruct (Hsyn eq_refl) as (_ & Hs & Hc). split; assumption.
Defined.

Lemma fallback_recommendations_count_witness :
  exists items w',
    getRecommendations None (Some 12) Samples.offline = (Returned (Arr items), w')
    /\ length items = 8%nat.
Proof.
  destruct (fallback_recommendations_count None 12 Samples.offline eq_refl)
    as (items & w' & Hr & _ & H8 & _).
  exists items, w'. split; [exact Hr | apply H8; reflexivity].
Defined.

End ClientProps.

(** * Properties of the live-stats channel *)

Module ChannelProps.

Import LiveStats.
Local Open Scope list_scope.

Section Channel.

Variable pf : platform.

Lemma unsubscribe_idempotent (c : channel) :
  unsubscribe (unsubscribe c) = unsubscribe c.
Proof.
  unfold unsubscribe. destruct c as [[[ | | | ]|] d l]; reflexivity.
Qed.

Lemma unsubscribe_delivers_nothing (c : channel) :
  delivered (unsubscribe c) = delivered c.
Proof.
  unfold unsubscribe. destruct c as [[[ | | | ]|] d l]; reflexivity.
Qed.

Lemma unsubscribe_winds_down (c : channel) :
  socket c <> Some CONNECTING -> winding_down (unsubscribe c).
Proof.
  unfold unsubscribe, winding_down.
  destruct c as [[[ | | | ]|] d l]; cbn; intros H; auto; congruence.
Qed.

Lemma step_winding_down (c : channel) (e : event) :
  winding_down c ->
  winding_down (step pf c e) /\ delivered (step pf c e) = delivered c.
Proof.
  unfold winding_down.
  destruct c as [sk d l]; cbn.
  intros [-> | [-> | ->]]; destruct e; cbn; auto.
Qed.

Lemma run_winding_down (es : list event) :
  forall c, winding_down c -> delivered (run pf c es) = delivered c.
Proof.
  induction es as [|e es IH]; intros c Hc; [reflexivity|].
  cbn. destruct (step_winding_down c e Hc) as [Hw Hd].
  unfold run in IH. rewrite (IH _ Hw). exact Hd.
Qed.

Lemma run_app (c : channel) (a b : list event) :
  run pf c (a ++ b) = run pf (run pf c a) b.
Proof. apply fold_left_app. Qed.

(** C3 (as amended). The unsubscribe function is idempotent and safe to
    call before the connection has opened, where it changes nothing; and
    when it is called once the socket is no longer connecting (open,
    closing, closed, or never created), the update callback never fires
    again, whatever the socket does afterwards. *)
Theorem unsubscribe_contract (api_url contentId : string) (pre post : list event) :
  let fresh := connectToLiveStats pf api_url contentId in
  let c := run pf fresh pre in
  unsubscribe (unsubscribe c) = unsubscribe c
  /\ unsubscribe fresh = fresh
  /\ (socket c <> Some CONNECTING ->
      delivered (run pf fresh (pre ++ Unsubscribe :: post)) = delivered c).
Proof.
  cbv zeta. split; [apply unsubscribe_idempotent|]. split.
  - unfold connectToLiveStats. destruct (accepts_url pf _); reflexivity.
  - intros H. rewrite run_app. cbn [run fold_left step].
    fold (run pf (unsubscribe (run pf (connectToLiveStats pf api_url contentId) pre)) post).
    rewrite run_winding_down; [apply unsubscribe_delivers_nothing|].
    now apply unsubscribe_winds_down.
Qed.

End Channel.

Lemma unsubscribe_contract_witness :
  delivered
    (run Samples.tiny_json
       (connectToLiveStats Samples.tiny_json "https://api.intuitv.app" "1")
       ([Opened; Message "{}"] ++ Unsubscribe :: [Message "{}"; Unsubscribe]))
  = [Obj []].
Proof.
  apply (proj2 (proj2 (unsubscribe_contract Samples.tiny_json
                         "https://api.intuitv.app" "1"
                         [Opened; Message "{}"] [Message "{}"; Unsubscribe]))).
  vm_compute. discriminate.
Defined.

(** C3 (as stated) fails: unsubscribing while the socket is still connecting
    leaves it connecting; once it opens, updates reach the callback. *)
Lemma unsubscribe_before_open_leaks :
  ~ (forall pf api_url contentId pre post,
       delivered
         (run pf (connectToLiveStats pf api_url contentId)
            (pre ++ Unsubscribe :: post))
       = delivered (run pf (connectToLiveStats pf api_url contentId) pre)).
Proof.
  intros H.
  specialize (H Samples.tiny_json "https://api.intuitv.app"%string "1"%string []
                [Opened; Message "{}"]).
  vm_compute in H. discriminate.
Qed.

End ChannelProps.

(** * Properties of the player *)

Module PlayerProps.

Import Types WebPlayer.
Local Open Scope list_scope.

Section Player.

Variables (P : props) (B : host).

Lemma deps_session_eqb_eq (a b : bool * bool * Z * string) :
  deps_session_eqb a b = true <-> a = b.
Proof.
  destruct a as [[[p1 s1] c1] i1], b as [[[p2 s2] c2] i2]. cbn.
  rewrite !andb_true_iff, Bool.eqb_true_iff, Bool.eqb_true_iff,
    Z.eqb_eq, String.eqb_eq.
  split; [intros [[[-> ->] ->] ->]; reflexivity | intros [= -> -> -> ->]; auto].
Qed.

Ltac open_commit :=
  unfold commit, session_fires, current_session_deps, start_call,
    session_effect, heartbeat_effect, run_heartbeat_cleanup,
    setInterval, clearInterval, issue, setSessionStarted, set_startTimeRef,
    with_effects, with_hooks, with_page, handles, cleanup_handles, same_view.

Lemma commit_spec (r : state) :
  exists s',
    commit P B r
    = (s', if session_fires P r then [(now r, start_call P B r)] else [],
       session_fires P r)
    /\ same_view r s'
    /\ session_deps s' = Some (current_session_deps P r)
    /\ sessionStarted s' = (sessionStarted r || session_fires P r)
    /\ startTimeRef s' = (if session_fires P r then now r else startTimeRef r)
    /\ in_flight s'
       = in_flight r ++ (if session_fires P r then [start_call P B r] else [])
    /\ (handles r = cleanup_handles r -> handles s' = cleanup_handles s').
Proof.
  destruct r as [t ts nh fl pl ct sid st sref m att hc sd hd hcl].
  open_commit. cbn.
  destruct (changed deps_session_eqb sd (pl, st, contentId P, sid)) eqn:Hs;
    destruct (changed deps_heartbeat_eqb hd (pl, ct, sid)) eqn:Hh;
    destruct pl, st, hcl as [h|]; cbn;
    eexists; (split; [reflexivity|]); cbn;
    repeat split; rewrite ?app_nil_r; try reflexivity;
    try (destruct sd as [d|]; [|discriminate]; cbn in Hs;
         apply negb_false_iff, deps_session_eqb_eq in Hs; now subst d).
  all: intros Hk; cbn in Hk |- *.
  all: try (destruct ts as [|x [|y ts]]; try discriminate; injection Hk as Hk;
            cbn; rewrite Hk, Nat.eqb_refl; reflexivity).
  all: try (destruct ts; [reflexivity | discriminate]).
  all: try (rewrite map_app; cbn; destruct ts; [reflexivity|discriminate]).
  all: try exact Hk.
Qed.


Lemma fires_needs_idle (s : state) :
  sessionStarted s = true -> session_fires P s = false.
Proof.
  intros H. unfold session_fires. rewrite H. cbn. apply andb_false_r.
Qed.

Lemma same_view_trans (a b c : state) :
  same_view a b -> same_view b c -> same_view a c.
Proof.
  unfold same_view. intros (?&?&?&?&?&?&?) (?&?&?&?&?&?&?).
  repeat split; congruence.
Qed.

(** What a render does, whatever the re-render budget: at most the session
    effect fires, once, and a second commit finds nothing left to do. *)
Lemma flush_spec (fuel : nat) (s : state) :
  exists s',
    flush (S fuel) P B s
    = (s', if session_fires P s then [(now s, start_call P B s)] else [])
    /\ same_view s s'
    /\ session_deps s' = Some (current_session_deps P s')
    /\ sessionStarted s' = (sessionStarted s || session_fires P s)
    /\ startTimeRef s' = (if session_fires P s then now s else startTimeRef s)
    /\ in_flight s'
       = in_flight s ++ (if session_fires P s then [start_call P B s] else [])
    /\ (handles s = cleanup_handles s -> handles s' = cleanup_handles s').
Proof.
  destruct (commit_spec s) as (s1 & Hc & Hv & Hd & Hst & Href & Hfl & Hk).
  cbn [flush]. rewrite Hc.
  destruct (session_fires P s) eqn:Hf.
  - (* the session effect fired: React renders again *)
    assert (Hs1 : sessionStarted s1 = true) by (rewrite Hst; apply orb_true_r).
    destruct (commit_spec s1) as (s2 & Hc2 & Hv2 & Hd2 & Hst2 & Href2 & Hfl2 & Hk2).
    rewrite (fires_needs_idle s1 Hs1) in *.
    assert (Hflush : flush fuel P B s1 = (s2, [])).
    { destruct fuel; cbn [flush]; rewrite Hc2; reflexivity. }
    rewrite Hflush. exists s2. split; [reflexivity|].
    split; [eapply same_view_trans; eassumption|].
    split.
    { rewrite Hd2. unfold current_session_deps.
      destruct Hv2 as (_ & Hp & _ & Hi & _). rewrite Hst2, orb_false_r.
      now rewrite Hp, Hi. }
    split; [rewrite Hst2, orb_false_r, Hs1; now rewrite orb_true_r|].
    split; [congruence|].
    split; [rewrite Hfl2, app_nil_r; exact Hfl | auto].
  - exists s1. split; [reflexivity|].
    split; [assumption|].
    split.
    { rewrite Hd. unfold current_session_deps.
      destruct Hv as (_ & Hp & _ & Hi & _). rewrite Hst, orb_false_r.
      now rewrite Hp, Hi. }
    repeat split; assumption.
Qed.

Lemma render_spec (s : state) :
  exists s',
    render P B s
    = (s', if session_fires P s then [(now s, start_call P B s)] else [])
    /\ same_view s s'
    /\ session_deps s' = Some (current_session_deps P s')
    /\ sessionStarted s' = (sessionStarted s || session_fires P s)
    /\ startTimeRef s' = (if session_fires P s then now s else startTimeRef s)
    /\ in_flight s'
       = in_flight s ++ (if session_fires P s then [start_call P B s] else [])
    /\ (handles s = cleanup_handles s -> handles s' = cleanup_handles s').
Proof. apply flush_spec. Qed.

Lemma flush_started (fuel : nat) (s : state) :
  sessionStarted s = true ->
  flush fuel P B s = (fst (fst (commit P B s)), []).
Proof.
  intros H. destruct (commit_spec s) as (s1 & Hc & _).
  rewrite (fires_needs_idle s H) in Hc.
  destruct fuel; cbn [flush]; rewrite Hc; reflexivity.
Qed.

Lemma flush_S (fuel : nat) (s : state) :
  flush (S fuel) P B s
  = let '(s', tr, dirty) := commit P B s in
    if dirty then let '(s'', tr') := flush fuel P B s' in (s'', tr ++ tr')
    else (s', tr).
Proof. reflexivity. Qed.

(** One re-render always suffices. *)
Lemma render_settles (fuel : nat) (s : state) :
  flush (S fuel) P B s = flush 1 P B s.
Proof.
  rewrite !flush_S.
  destruct (commit_spec s) as (s1 & Hc & _ & _ & Hst & _). rewrite Hc.
  destruct (session_fires P s); [|reflexivity].
  rewrite orb_true_r in Hst.
  rewrite (flush_started fuel s1 Hst), (flush_started 0 s1 Hst). reflexivity.
Qed.


(** *** Timers fire heartbeats and nothing else *)

Lemma insert_by_time_only (x : Z * call) (l : trace) :
  is_sendHeartbeat (snd x) = true -> only_heartbeats l ->
  only_heartbeats (insert_by_time x l).
Proof.
  intros Hx. induction 1 as [|y l Hy Hl IH]; cbn.
  - now repeat constructor.
  - destruct (fst x <=? fst y); repeat constructor; auto.
Qed.

Lemma by_time_only (l : trace) : only_heartbeats l -> only_heartbeats (by_time l).
Proof.
  induction 1 as [|x l Hx Hl IH]; cbn; [constructor|].
  now apply insert_by_time_only.
Qed.

Lemma elapse_only (ms : N) (s : state) : only_heartbeats (snd (elapse ms s)).
Proof.
  cbn. apply by_time_only. apply Forall_flat_map, Forall_forall.
  intros t _. unfold timer_trace. apply Forall_map, Forall_forall.
  intros at_ _. reflexivity.
Qed.

Lemma only_heartbeats_no_start (tr : trace) :
  only_heartbeats tr -> startSession_calls tr = [].
Proof.
  unfold startSession_calls, calls.
  induction 1 as [|[t c] l Hx Hl IH]; cbn in *; [reflexivity|].
  destruct c; try discriminate. exact IH.
Qed.

(** *** One event *)

Lemma fires_after (s st : state) :
  recorded P s -> idle_paused s ->
  session_deps st = session_deps s ->
  sessionStarted st = sessionStarted s ->
  sessionId st = sessionId s ->
  session_fires P st = playing st && negb (sessionStarted s).
Proof.
  unfold recorded, idle_paused, session_fires, current_session_deps.
  intros Hr Hi Hd Hs Hid. rewrite Hd, Hr, Hs, Hid. cbn.
  rewrite Z.eqb_refl, String.eqb_refl.
  destruct (sessionStarted s); [now rewrite !andb_false_r|].
  rewrite (Hi eq_refl). now destruct (playing st).
Qed.

Lemma owned_short (s : state) : owned s -> (length (timers s) <= 1)%nat.
Proof.
  unfold owned, handles, cleanup_handles. intros H.
  rewrite <- (length_map handle), H. destruct (heartbeat_cleanup s); cbn; lia.
Qed.

(** A handler changed [playing], [currentTime] or the requests in flight,
    then React rendered. *)
Lemma after_handler (s st : state) (tr0 : trace) :
  Inv P s -> mounted s = true ->
  session_deps st = session_deps s -> sessionStarted st = sessionStarted s ->
  sessionId st = sessionId s -> startTimeRef st = startTimeRef s ->
  now st = now s -> mounted st = mounted s -> timers st = timers s ->
  heartbeat_cleanup st = heartbeat_cleanup s ->
  forall p, playing st = p ->
  let fires := p && negb (sessionStarted s) in
  exists s',
    then_render P B (st, tr0)
    = (s', tr0 ++ (if fires then [(now s, start_call P B s)] else []))
    /\ Inv P s'
    /\ sessionId s' = sessionId s
    /\ now s' = now s
    /\ mounted s' = true
    /\ playing s' = p
    /\ sessionStarted s' = (sessionStarted s || p)
    /\ startTimeRef s' = (if fires then now s else startTimeRef s)
    /\ in_flight s' = in_flight st ++ (if fires then [start_call P B s] else []).
Proof.
  intros (Hrec & Hidle & Hown & Hdet) Hm Hd Hs Hid Href Hnow Hmt Hts Hcl p Hp fires.
  destruct (render_spec st) as (s' & Hr & Hv & Hd' & Hst & Hsr & Hfl & Hk).
  rewrite (fires_after s st Hrec Hidle Hd Hs Hid), Hp in *. fold fires in Hr, Hst, Hsr.
  destruct Hv as (Hn' & Hp' & _ & Hi' & Hm' & _).
  exists s'. unfold then_render. rewrite Hr.
  assert (Hcall : start_call P B st = start_call P B s)
    by (unfold start_call; now rewrite Hid).
  rewrite Hnow, Hcall. split; [reflexivity|].
  split.
  { split; [exact Hd'|]. split; [|split].
    - unfold idle_paused. rewrite Hst, Hs, Hp', Hp. unfold fires.
      destruct (sessionStarted s), p; cbn; congruence.
    - apply Hk. unfold owned, handles, cleanup_handles in *. now rewrite Hts, Hcl.
    - unfold detached. rewrite Hm', Hmt, Hm. discriminate. }
  split; [congruence|]. split; [congruence|]. split; [congruence|].
  split; [congruence|].
  split; [rewrite Hst, Hs; unfold fires; now destruct (sessionStarted s), p|].
  split; [rewrite Hsr, Hnow, Href; reflexivity|].
  rewrite Hfl. fold fires. now rewrite Hcall.
Qed.

Lemma calls_app (a b : trace) : calls (a ++ b) = calls a ++ calls b.
Proof. apply map_app. Qed.

Lemma filter_stamp_none (f : call -> bool) (t : Z) (l : list call) :
  (forall c, In c l -> f c = false) -> filter f (calls (stamp t l)) = [].
Proof.
  intros Hf. unfold calls, stamp. rewrite map_map. cbn. rewrite map_id.
  induction l as [|c l IH]; [reflexivity|].
  cbn. rewrite (Hf c (or_introl eq_refl)). apply IH.
  intros c' Hc'. apply Hf. now right.
Qed.

Lemma step_spec (s : state) (e : event) :
  Inv P s ->
  exists s' tr,
    step P B s e = (s', tr)
    /\ Inv P s'
    /\ sessionId s' = sessionId s
    /\ now s' = now s + elapsed_by e
    /\ mounted s' = (mounted s && negb (is_Unmount e))
    /\ sessionStarted s' = (sessionStarted s || (mounted s && is_Play e))
    /\ startSession_calls tr
       = (if mounted s && is_Play e && negb (sessionStarted s)
          then [start_call P B s] else [])
    /\ (sessionStarted s = true -> startTimeRef s' = startTimeRef s)
    /\ (sessionStarted s = false -> sessionStarted s' = true ->
        startTimeRef s' = now s /\ In (now s, start_call P B s) tr)
    /\ (timers s = [] -> heartbeats tr = []).
Proof.
  intros HI.
  assert (Hquiet : exists s' tr, (s, @nil (Z * call)) = (s', tr) /\ Inv P s'
            /\ sessionId s' = sessionId s /\ now s' = now s + 0
            /\ mounted s' = (mounted s && negb false)
            /\ sessionStarted s' = (sessionStarted s || (mounted s && false))
            /\ startSession_calls tr
               = (if mounted s && false && negb (sessionStarted s)
                  then [start_call P B s] else [])
            /\ (sessionStarted s = true -> startTimeRef s' = startTimeRef s)
            /\ (sessionStarted s = false -> sessionStarted s' = true ->
                startTimeRef s' = now s /\ In (now s, start_call P B s) tr)
            /\ (timers s = [] -> heartbeats tr = [])).
  { exists s, []. cbn [negb]. rewrite Z.add_0_r, andb_true_r, andb_false_r, orb_false_r.
    split; [reflexivity|]. split; [exact HI|].
    repeat (split; [reflexivity|]).
    split; [intros A C; congruence | reflexivity]. }
  destruct e as [ | | t | | | data | ms | i | ]; cbn [step elapsed_by is_Play is_Unmount].
  - (* Play *)
    destruct (mounted s) eqn:Hm; [|exact Hquiet].
    destruct (after_handler s (setPlaying true s) [] HI Hm) with (p := true)
      as (s' & Hr & HI' & Hid & Hn & Hm' & Hp & Hst & Hsr & _); try reflexivity.
    clear Hquiet. cbn [andb orb app negb] in *.
    exists s'. eexists. split; [exact Hr|].
    rewrite Z.add_0_r, orb_true_r in *.
    split; [exact HI'|]. split; [exact Hid|]. split; [exact Hn|].
    split; [exact Hm'|]. split; [exact Hst|].
    split; [unfold startSession_calls; destruct (sessionStarted s); reflexivity|].
    split; [intros H; now rewrite H in Hsr|].
    split.
    { intros H _. rewrite H in *. split; [exact Hsr | now left]. }
    intros _. unfold heartbeats. destruct (sessionStarted s); reflexivity.
  - (* Pause *)
    destruct (mounted s) eqn:Hm; [|exact Hquiet].
    destruct (after_handler s (setPlaying false s) [] HI Hm) with (p := false)
      as (s' & Hr & HI' & Hid & Hn & Hm' & Hp & Hst & Hsr & _); try reflexivity.
    clear Hquiet. cbn [andb orb app negb] in *.
    exists s'. eexists. split; [exact Hr|].
    rewrite Z.add_0_r, orb_false_r in *.
    split; [exact HI'|]. split; [exact Hid|]. split; [exact Hn|].
    split; [exact Hm'|]. split; [exact Hst|].
    split; [reflexivity|]. split; [intros _; exact Hsr|].
    split; [intros A C; congruence | reflexivity].
  - (* TimeUpdate *)
    destruct (mounted s) eqn:Hm; [|exact Hquiet].
    destruct (after_handler s (setCurrentTime t s) [] HI Hm) with (p := playing s)
      as (s' & Hr & HI' & Hid & Hn & Hm' & Hp & Hst & Hsr & _); try reflexivity.
    clear Hquiet. cbn [andb orb app negb] in *.
    assert (Hnf : playing s && negb (sessionStarted s) = false).
    { destruct HI as (_ & Hidle & _). unfold idle_paused in Hidle.
      destruct (sessionStarted s); [apply andb_false_r|]. now rewrite Hidle. }
    rewrite Hnf in *.
    assert (Hst' : sessionStarted s' = sessionStarted s).
    { rewrite Hst. destruct (sessionStarted s), (playing s); try reflexivity; discriminate. }
    exists s'. eexists. split; [exact Hr|].
    rewrite Z.add_0_r, orb_false_r in *.
    split; [exact HI'|]. split; [exact Hid|]. split; [exact Hn|].
    split; [exact Hm'|]. split; [exact Hst'|].
    split; [reflexivity|]. split; [intros _; exact Hsr|].
    split; [intros A C; congruence | reflexivity].
  - (* Ended *)
    destruct (mounted s) eqn:Hm; [|exact Hquiet].
    destruct (after_handler s (fst (handleEnded P s)) (snd (handleEnded P s)) HI Hm)
      with (p := false)
      as (s' & Hr & HI' & Hid & Hn & Hm' & Hp & Hst & Hsr & _); try reflexivity.
    clear Hquiet. cbn [andb orb negb] in *.
    exists s'. eexists.
    split; [unfold handleEnded in *; cbn [fst snd] in Hr; exact Hr|].
    rewrite Z.add_0_r, orb_false_r in *.
    split; [exact HI'|]. split; [exact Hid|]. split; [exact Hn|].
    split; [exact Hm'|]. split; [exact Hst|].
    split.
    { rewrite app_nil_r. unfold startSession_calls. cbn.
      destruct (has_onEnded P); reflexivity. }
    split; [intros _; exact Hsr|].
    split; [intros A C; congruence|].
    intros _. rewrite app_nil_r. unfold heartbeats. cbn.
    destruct (has_onEnded P); reflexivity.
  - (* ManifestParsed *)
    destruct (hls_attached s && autoplay P); [|exact Hquiet].
    destruct Hquiet as (s' & tr & [= <- <-] & H). exists s. eexists.
    split; [reflexivity|].
    destruct H as (H1 & H2 & H3 & H4 & H5 & H6 & H7 & H8 & H9).
    repeat (split; [assumption|]).
    split; [intros A C; congruence | reflexivity].
  - (* HlsError *)
    destruct (hls_attached s); [|exact Hquiet]. clear Hquiet.
    eexists; eexists. split; [reflexivity|].
    destruct HI as (Hrec & Hidle & Hown & Hdet).
    cbn [negb]. rewrite ?Z.add_0_r, ?andb_true_r, ?andb_false_r, ?orb_false_r.
    cbn [andb].
    assert (Hcs : forall c, In c (on_hls_error data) ->
                       is_startSession c = false /\ is_sendHeartbeat c = false).
    { unfold on_hls_error. intros c.
      destruct (fatal data); [|intros []].
      destruct (type data); intros [<- | []]; split; reflexivity. }
    pose proof (fun f => filter_stamp_none f (now s) (on_hls_error data)) as Hno.
    split; [repeat split; assumption|].
    repeat (split; [reflexivity|]).
    split; [apply Hno; intros c Hc; now apply Hcs|].
    split; [reflexivity|].
    split; [intros A C; cbn in C; congruence|].
    intros _. apply Hno. intros c Hc. now apply Hcs.
  - (* Elapse *)
    clear Hquiet.
    eexists; eexists. split; [reflexivity|].
    destruct HI as (Hrec & Hidle & Hown & Hdet).
    cbn [negb]. rewrite ?andb_true_r, ?andb_false_r, ?orb_false_r. cbn [andb].
    pose proof (elapse_only ms s) as Honly. cbn [elapse snd] in Honly.
    split.
    { split; [exact Hrec|]. split; [exact Hidle|]. split.
      - unfold owned, handles, cleanup_handles in *. cbn. rewrite map_map. cbn. exact Hown.
      - unfold detached in *. cbn. intros Hm. now rewrite (Hdet Hm). }
    repeat (split; [reflexivity|]).
    split; [now apply only_heartbeats_no_start|].
    split; [reflexivity|].
    split; [intros A C; cbn in C; congruence|].
    intros Hts. rewrite Hts. reflexivity.
  - (* Settle *)
    clear Hquiet.
    eexists; eexists. split; [reflexivity|].
    destruct HI as (Hrec & Hidle & Hown & Hdet).
    cbn [negb]. rewrite ?Z.add_0_r, ?andb_true_r, ?andb_false_r, ?orb_false_r.
    cbn [andb].
    split; [repeat split; assumption|].
    repeat (split; [reflexivity|]).
    split; [intros A C; cbn in C; congruence | reflexivity].
  - (* Unmount *)
    destruct (mounted s) eqn:Hm; [|exact Hquiet]. clear Hquiet.
    eexists; eexists. split; [reflexivity|].
    destruct HI as (Hrec & Hidle & Hown & Hdet).
    rewrite Z.add_0_r, orb_false_r.
    assert (Hcleared : timers (run_heartbeat_cleanup s) = []).
    { unfold owned, handles, cleanup_handles, run_heartbeat_cleanup in *.
      destruct (heartbeat_cleanup s) as [h|]; cbn.
      - destruct (timers s) as [|x [|y ts]]; try discriminate.
        injection Hown as Hown. cbn. now rewrite Hown, Nat.eqb_refl.
      - now destruct (timers s). }
    assert (Hframe : now (run_heartbeat_cleanup s) = now s
                     /\ session_deps (run_heartbeat_cleanup s) = session_deps s
                     /\ playing (run_heartbeat_cleanup s) = playing s
                     /\ sessionStarted (run_heartbeat_cleanup s) = sessionStarted s
                     /\ sessionId (run_heartbeat_cleanup s) = sessionId s
                     /\ startTimeRef (run_heartbeat_cleanup s) = startTimeRef s).
    { unfold run_heartbeat_cleanup. destruct (heartbeat_cleanup s); repeat split. }
    destruct Hframe as (F1 & F2 & F3 & F4 & F5 & F6).
    split.
    { split; [|split; [|split]].
      - unfold recorded, current_session_deps in *. cbn. congruence.
      - unfold idle_paused in *. cbn. intros H. rewrite F3. apply Hidle. congruence.
      - unfold owned, handles, cleanup_handles. cbn. now rewrite Hcleared.
      - intros _. exact Hcleared. }
    cbn.
    split; [exact F5|]. split; [exact F1|]. split; [reflexivity|].
    split; [exact F4|].
    split; [unfold startSession_calls; destruct (hls_cleanup s); reflexivity|].
    split; [intros _; exact F6|].
    split; [intros A C; congruence|].
    intros _. unfold heartbeats. destruct (hls_cleanup s); reflexivity.
Qed.


(** *** Mounting *)

Lemma mount_spec (t0 : Z) :
  exists s0 tr0,
    mount P B t0 = (s0, tr0)
    /\ Inv P s0
    /\ mounted s0 = true
    /\ sessionStarted s0 = false
    /\ sessionId s0 = generateSessionId B t0
    /\ now s0 = t0
    /\ timers s0 = []
    /\ startSession_calls tr0 = []
    /\ heartbeats tr0 = [].
Proof.
  unfold mount, then_render, render, RERENDERS. rewrite flush_S.
  unfold commit, session_effect, heartbeat_effect, run_heartbeat_cleanup. cbn.
  eexists; eexists. split; [reflexivity|].
  split; [repeat split; cbn; discriminate|].
  repeat (split; [reflexivity|]).
  destruct (Hls_isSupported B), (canPlayType_hls B); split; reflexivity.
Qed.

(** *** Sequences of events *)

Lemma startSession_calls_app (a b : trace) :
  startSession_calls (a ++ b) = startSession_calls a ++ startSession_calls b.
Proof. unfold startSession_calls. now rewrite calls_app, filter_app. Qed.

Lemma heartbeats_app (a b : trace) :
  heartbeats (a ++ b) = heartbeats a ++ heartbeats b.
Proof. unfold heartbeats. now rewrite calls_app, filter_app. Qed.

Lemma run_spec (es : list event) :
  forall (s : state) (hist : trace),
    Inv P s ->
    (sessionStarted s = true -> In (startTimeRef s, start_call P B s) hist) ->
    exists s' tr,
      run P B s es = (s', tr)
      /\ Inv P s'
      /\ sessionId s' = sessionId s
      /\ mounted s' = (mounted s && negb (existsb is_Unmount es))
      /\ sessionStarted s' = (sessionStarted s || plays_mounted (mounted s) es)
      /\ startSession_calls tr
         = (if negb (sessionStarted s) && plays_mounted (mounted s) es
            then [start_call P B s] else [])
      /\ (sessionStarted s' = true ->
          In (startTimeRef s', start_call P B s') (hist ++ tr)).
Proof.
  induction es as [|e es IH]; intros s hist HI Hh.
  - exists s, []. cbn. rewrite andb_true_r, orb_false_r, andb_false_r, app_nil_r.
    repeat (split; [reflexivity || assumption|]). exact Hh.
  - destruct (step_spec s e HI)
      as (s1 & tr1 & Hs & HI1 & Hid1 & _ & Hm1 & Hst1 & Hc1 & Hk1 & Hn1 & _).
    assert (Hcall : start_call P B s1 = start_call P B s)
      by (unfold start_call; now rewrite Hid1).
    assert (Hh1 : sessionStarted s1 = true ->
                  In (startTimeRef s1, start_call P B s1) (hist ++ tr1)).
    { intros H1. rewrite Hcall. apply in_or_app.
      destruct (sessionStarted s) eqn:E.
      - left. rewrite (Hk1 eq_refl). now apply Hh.
      - right. destruct (Hn1 eq_refl H1) as [-> Hin]. exact Hin. }
    destruct (IH s1 (hist ++ tr1) HI1 Hh1)
      as (s2 & tr2 & Hr & HI2 & Hid2 & Hm2 & Hst2 & Hc2 & Hh2).
    exists s2, (tr1 ++ tr2). cbn [run]. rewrite Hs, Hr.
    split; [reflexivity|]. split; [exact HI2|]. split; [congruence|].
    split.
    { rewrite Hm2, Hm1. cbn [existsb]. rewrite negb_orb. now rewrite andb_assoc. }
    split.
    { rewrite Hst2, Hst1, Hm1. cbn [plays_mounted]. now rewrite orb_assoc. }
    split.
    { rewrite startSession_calls_app, Hc1, Hc2, Hst1, Hm1, Hcall.
      cbn [plays_mounted].
      destruct (sessionStarted s), (mounted s && is_Play e); cbn;
        try reflexivity;
        now destruct (plays_mounted _ es). }
    rewrite app_assoc. exact Hh2.
Qed.

Lemma plays_mounted_no_unmount (es : list event) :
  existsb is_Unmount es = false -> plays_mounted true es = existsb is_Play es.
Proof.
  induction es as [|e es IH]; cbn; [reflexivity|].
  intros H. apply orb_false_iff in H as [He Hes]. rewrite He. cbn.
  now rewrite IH.
Qed.

Lemma session_spec (t0 : Z) (es : list event) :
  exists s tr,
    session P B t0 es = (s, tr)
    /\ Inv P s
    /\ sessionId s = generateSessionId B t0
    /\ mounted s = negb (existsb is_Unmount es)
    /\ sessionStarted s = plays_mounted true es
    /\ startSession_calls tr
       = (if plays_mounted true es
          then [startSession (string_of_Z (contentId P)) (generateSessionId B t0)
                  (session_metadata B)]
          else [])
    /\ (sessionStarted s = true -> In (startTimeRef s, start_call P B s) tr).
Proof.
  destruct (mount_spec t0)
    as (s0 & tr0 & Hm & HI0 & Hmt & Hst & Hid & Hnow & Hts & Hc0 & Hh0).
  destruct (run_spec es s0 tr0 HI0) as (s & tr & Hr & HI & Hid' & Hm' & Hst' & Hc & Hh).
  { rewrite Hst. discriminate. }
  exists s, (tr0 ++ tr). unfold session. rewrite Hm, Hr.
  rewrite Hmt, Hst in *. cbn [negb andb orb] in *.
  split; [reflexivity|]. split; [exact HI|]. split; [congruence|].
  split; [exact Hm'|]. split; [exact Hst'|].
  split; [|exact Hh].
  rewrite startSession_calls_app, Hc0, Hc. unfold start_call. now rewrite Hid.
Qed.


Lemma ended_step (s : state) :
  Inv P s -> mounted s = true ->
  let c := endSession (sessionId s) ((now s - startTimeRef s) / 1000) in
  exists s',
    step P B s Ended
    = (s', (now s, c) :: (if has_onEnded P then [(now s, onEnded)] else []))
    /\ in_flight s' = in_flight s ++ [c]
    /\ playing s' = false.
Proof.
  intros HI Hm c.
  destruct (after_handler s (fst (handleEnded P s)) (snd (handleEnded P s)) HI Hm)
    with (p := false)
    as (s' & Hr & _ & _ & _ & _ & Hp & _ & _ & Hfl); try reflexivity.
  cbn [andb] in Hr, Hfl. rewrite app_nil_r in Hr, Hfl.
  exists s'. cbn [step]. rewrite Hm.
  split; [exact Hr|]. split; [exact Hfl | exact Hp].
Qed.

Lemma unmounted_silent (more : list event) :
  forall s, Inv P s -> mounted s = false ->
    heartbeats (snd (run P B s more)) = [].
Proof.
  induction more as [|e more IH]; intros s HI Hm; [reflexivity|].
  destruct (step_spec s e HI)
    as (s1 & tr1 & Hs & HI1 & _ & _ & Hm1 & _ & _ & _ & _ & Hq).
  cbn [run]. rewrite Hs.
  destruct (run P B s1 more) as [s2 tr2] eqn:Hr. cbn [snd].
  rewrite heartbeats_app, Hq.
  - cbn. specialize (IH s1 HI1). rewrite Hr in IH. apply IH.
    rewrite Hm1, Hm. reflexivity.
  - destruct HI as (_ & _ & _ & Hdet). now apply Hdet.
Qed.


(** *** Playback starves the heartbeat *)

Lemma armed_elapse (d : Z) (s : state) (ms : N) :
  armed P d s -> now s + Z.of_N ms < d ->
  exists s',
    step P B s (Elapse ms) = (s', [])
    /\ armed P d s' /\ now s' = now s + Z.of_N ms /\ currentTime s' = currentTime s.
Proof.
  intros (Hm & Hp & Hst & Hsd & Hhd & (tm & Hts & Hcl & Hd)) Hlt.
  cbn [step]. unfold elapse. rewrite Hts. cbn [flat_map map app].
  unfold timer_trace, rearm, firings.
  assert (E : (due tm <=? now s + Z.of_N ms) = false) by (apply Z.leb_gt; lia).
  rewrite !E. cbn. rewrite Z.add_0_r.
  eexists. split; [reflexivity|].
  split; [|split; reflexivity].
  unfold armed; cbn. repeat (split; [assumption|]).
  exists tm. destruct tm; cbn in *. repeat split; assumption.
Qed.

Lemma armed_timeupdate (d : Z) (s : state) (t : Q) :
  armed P d s -> ~ t == currentTime s ->
  exists s',
    step P B s (TimeUpdate t) = (s', [])
    /\ armed P (now s + HEARTBEAT_MS) s' /\ now s' = now s /\ currentTime s' = t.
Proof.
  intros (Hm & Hp & Hst & Hsd & (ct & Hhd & Hct) & (tm & Hts & Hcl & Hd)) Hne.
  destruct s as [t0 ts nh fl pl c sid st sref m att hc sd hd hcl].
  cbn in Hm, Hp, Hst, Hsd, Hhd, Hct, Hts, Hcl, Hd, Hne.
  subst m pl st sd hd ts hcl.
  cbn [step mounted]. unfold then_render, render, RERENDERS. rewrite flush_S.
  unfold commit, session_effect, heartbeat_effect, run_heartbeat_cleanup,
    setInterval, clearInterval, setCurrentTime, with_hooks, with_effects, with_page.
  cbn.
  rewrite Z.eqb_refl, String.eqb_refl. cbn.
  assert (E : Qeq_bool ct t = false).
  { apply not_true_is_false. intros H. apply Qeq_bool_iff in H.
    apply Hne. rewrite <- H. exact Hct. }
  rewrite E. cbn. rewrite Nat.eqb_refl. cbn.
  eexists. split; [reflexivity|].
  split; [|split; reflexivity].
  unfold armed; cbn. repeat (split; [reflexivity|]).
  split; [exists t; split; [reflexivity | reflexivity]|].
  eexists. repeat split.
Qed.


Lemma armed_playback (l : list (N * Q)) :
  forall s from,
    armed P (now s + HEARTBEAT_MS) s -> from == currentTime s -> advancing from l ->
    snd (run P B s (playback l)) = [].
Proof.
  induction l as [|[ms t] l IH]; intros s from Ha Hfrom Hl; [reflexivity|].
  cbn in Hl. destruct Hl as (Hms & Hne & Hl).
  destruct (armed_elapse _ s ms Ha) as (s1 & Hs1 & Ha1 & Hn1 & Hc1); [lia|].
  destruct (armed_timeupdate _ s1 t Ha1) as (s2 & Hs2 & Ha2 & Hn2 & Hc2).
  { rewrite Hc1, <- Hfrom. exact Hne. }
  cbn [playback flat_map fst snd app run]. rewrite Hs1, Hs2.
  fold (playback l).
  rewrite <- Hn2 in Ha2.
  specialize (IH s2 t Ha2). rewrite Hc2 in IH. specialize (IH (Qeq_refl t) Hl).
  destruct (run P B s2 (playback l)) as [s3 tr3]. cbn in *. exact IH.
Qed.

Lemma mount_idle (t0 : Z) :
  idle P (fst (mount P B t0))
  /\ now (fst (mount P B t0)) = t0
  /\ currentTime (fst (mount P B t0)) = 0%Q
  /\ heartbeats (snd (mount P B t0)) = [].
Proof.
  unfold mount, then_render, render, RERENDERS. rewrite flush_S.
  generalize (generateSessionId B t0) as sid. intros sid.
  unfold commit, session_effect, heartbeat_effect, run_heartbeat_cleanup.
  cbn -[flush].
  split.
  { unfold idle; cbn. repeat (split; [reflexivity|]).
    split; [exists 0%Q; reflexivity | split; reflexivity]. }
  repeat (split; [reflexivity|]).
  destruct (Hls_isSupported B), (canPlayType_hls B); reflexivity.
Qed.

(** A commit that finds the session started and the heartbeat
    dependencies unchanged only refreshes the recorded session
    dependencies. *)
Lemma commit_settled (r : state) :
  sessionStarted r = true ->
  (exists ct, heartbeat_deps r = Some (playing r, ct, sessionId r)
              /\ Qeq_bool ct (currentTime r) = true) ->
  commit P B r
  = (with_effects (mounted r) (hls_attached r) (Some (current_session_deps P r))
       (heartbeat_deps r) (heartbeat_cleanup r) r, [], false).
Proof.
  intros Hst (ct & Hhd & Hct).
  destruct r as [t0 ts nh fl pl c sid st sref m att hc sd hd hcl].
  cbn in Hst, Hhd, Hct. subst st hd.
  unfold commit, session_effect, heartbeat_effect, current_session_deps,
    with_effects. cbn.
  rewrite Bool.eqb_reflx, Hct, String.eqb_refl. cbn.
  destruct (changed deps_session_eqb sd (pl, true, contentId P, sid)) eqn:Hs;
    cbn; rewrite ?andb_false_r; [reflexivity|].
  destruct sd as [d|]; [|discriminate]. cbn in Hs.
  apply negb_false_iff, deps_session_eqb_eq in Hs. now subst d.
Qed.

Lemma idle_play (s : state) :
  idle P s ->
  exists s' tr,
    step P B s Play = (s', tr)
    /\ armed P (now s + HEARTBEAT_MS) s'
    /\ now s' = now s /\ currentTime s' = currentTime s
    /\ heartbeats tr = [].
Proof.
  intros (Hm & Hp & Hst & Hsd & (ct & Hhd) & Hcl & Hts).
  destruct s as [t0 ts nh fl pl c sid st sref m att hc sd hd hcl].
  cbn in Hm, Hp, Hst, Hsd, Hhd, Hts, Hcl.
  subst m pl st sd hd ts hcl.
  cbn [step mounted]. unfold then_render, render, RERENDERS. rewrite flush_S.
  unfold commit. cbn -[flush].
  rewrite flush_started by reflexivity.
  rewrite commit_settled;
    [|reflexivity | exists c; split; [reflexivity | apply Qeq_bool_refl]].
  unfold with_effects, current_session_deps. cbn.
  eexists; eexists. split; [reflexivity|].
  split.
  { unfold armed; cbn. repeat (split; [reflexivity|]).
    split; [exists c; split; reflexivity|].
    eexists. repeat split. }
  repeat split.
Qed.

End Player.

(** During normal playback no heartbeat is ever sent. *)
Lemma heartbeats_starve (P : props) (B : host) (t0 : Z) (l : list (N * Q)) :
  advancing 0 l ->
  heartbeats (snd (session P B t0 (Play :: playback l))) = [].
Proof.
  intros Hl. unfold session.
  destruct (mount_idle P B t0) as (Hi & Hn & Hc & Hh).
  destruct (mount P B t0) as [s0 tr0] eqn:Hm. cbn [fst snd] in *.
  destruct (idle_play P B s0 Hi) as (s1 & tr1 & Hs & Ha & Hn1 & Hc1 & Hh1).
  cbn [run]. rewrite Hs.
  rewrite <- Hn1 in Ha.
  pose proof (armed_playback P B l s1 0%Q Ha) as Hp.
  rewrite Hc1, Hc in Hp. specialize (Hp (Qeq_refl 0) Hl).
  destruct (run P B s1 (playback l)) as [s2 tr2]. cbn in Hp. subst tr2.
  cbn [snd]. rewrite !heartbeats_app, Hh, Hh1. reflexivity.
Qed.

(** ** The claims about the player *)

(** C1 (as amended). For every sequence of events reaching a mounted player,
    a [startSession] call is issued exactly when the sequence contains a
    play event, and then exactly once, with the mount's content and session
    identifiers: the first play starts the session (none is issued before
    it) and no later play starts a second one. *)
Theorem one_session_per_mount (P : props) (B : host) (t0 : Z) (es : list event) :
  existsb is_Unmount es = false ->
  let c := startSession (string_of_Z (contentId P)) (generateSessionId B t0)
             (session_metadata B) in
  startSession_calls (snd (session P B t0 es))
  = (if existsb is_Play es then [c] else [])
  /\ forall pre post,
       es = pre ++ Play :: post -> existsb is_Play pre = false ->
       startSession_calls (snd (session P B t0 pre)) = []
       /\ startSession_calls (snd (session P B t0 (pre ++ [Play]))) = [c]
       /\ startSession_calls (snd (session P B t0 es)) = [c].
Proof.
  intros Hu c.
  assert (Hgen : forall l, existsb is_Unmount l = false ->
            startSession_calls (snd (session P B t0 l))
            = (if existsb is_Play l then [c] else [])).
  { intros l Hl. destruct (session_spec P B t0 l) as (s & tr & Hs & _ & _ & _ & _ & Hc & _).
    rewrite Hs. cbn [snd]. rewrite Hc, (plays_mounted_no_unmount l Hl). reflexivity. }
  split; [now apply Hgen|].
  intros pre post -> Hpre.
  rewrite existsb_app in Hu. apply orb_false_iff in Hu as [Hu1 Hu2].
  split; [rewrite (Hgen pre Hu1), Hpre; reflexivity|].
  split.
  - rewrite Hgen; [|rewrite existsb_app, Hu1; reflexivity].
    rewrite existsb_app. cbn. now rewrite orb_true_r.
  - rewrite Hgen; [|rewrite existsb_app, Hu1; exact Hu2].
    rewrite existsb_app. cbn. now rewrite orb_true_r.
Qed.

(** C4 (as amended). On an 'ended' event that follows the session start,
    exactly one [endSession] call is issued, carrying the whole seconds
    elapsed between the instant stamped on the [startSession] call and the
    event; the completion callback, when supplied, runs right after, while
    that call is still in flight. *)
Theorem ended_reports_watch_time (P : props) (B : host) (t0 : Z) (pre : list event) :
  existsb is_Unmount pre = false ->
  existsb is_Play pre = true ->
  let s := fst (session P B t0 pre) in
  exists t_start,
    In (t_start,
        startSession (string_of_Z (contentId P)) (sessionId s) (session_metadata B))
       (snd (session P B t0 pre))
    /\ let c := endSession (sessionId s) ((now s - t_start) / 1000) in
       snd (step P B s Ended)
       = (now s, c) :: (if has_onEnded P then [(now s, onEnded)] else [])
       /\ in_flight (fst (step P B s Ended)) = in_flight s ++ [c].
Proof.
  intros Hu Hp.
  destruct (session_spec P B t0 pre) as (s & tr & Hs & HI & _ & Hm & Hst & _ & Hh).
  rewrite Hs. cbn [fst snd]. cbv zeta.
  rewrite (plays_mounted_no_unmount pre Hu), Hp in Hst.
  rewrite Hu in Hm. cbn in Hm.
  exists (startTimeRef s). split; [exact (Hh Hst)|].
  destruct (ended_step P B s HI Hm) as (s' & Hstep & Hfl & _).
  rewrite Hstep. cbn [fst snd]. split; [reflexivity | exact Hfl].
Qed.

(** C7 (as amended). At every instant at most one heartbeat timer is armed,
    and it is the one the effect's pending cleanup clears, so re-arming
    always removes the previous timer first; after unmount, in any state,
    no timer remains armed and no heartbeat fires whatever happens next. *)
Theorem single_heartbeat_timer (P : props) (B : host) (t0 : Z) (es : list event) :
  let s := fst (session P B t0 es) in
  (length (timers s) <= 1)%nat
  /\ map handle (timers s) = cleanup_handles s
  /\ (existsb is_Unmount es = true ->
      timers s = []
      /\ forall more, heartbeats (snd (run P B s more)) = []).
Proof.
  destruct (session_spec P B t0 es) as (s & tr & Hs & HI & _ & Hm & _).
  rewrite Hs. cbn [fst]. cbv zeta.
  pose proof HI as (_ & _ & Hown & Hdet).
  split; [now apply owned_short|]. split; [exact Hown|].
  intros Hu. rewrite Hu in Hm. cbn in Hm.
  split; [now apply Hdet|].
  intros more. now apply unmounted_silent.
Qed.

(** C5. On a live pipeline the recovery action follows the error's class:
    non-fatal, nothing; fatal network, [startLoad] and the pipeline stays;
    fatal media, [recoverMediaError] and the pipeline stays; any other fatal
    class, [destroy]. *)
Theorem fault_tiering (P : props) (B : host) (s : state) (data : ErrorData) :
  hls_attached s = true ->
  let s' := fst (step P B s (HlsError data)) in
  let cs := calls (snd (step P B s (HlsError data))) in
  (fatal data = false -> cs = [] /\ hls_attached s' = true)
  /\ (fatal data = true -> type data = NETWORK_ERROR ->
      cs = [hls_startLoad] /\ hls_attached s' = true)
  /\ (fatal data = true -> type data = MEDIA_ERROR ->
      cs = [hls_recoverMediaError] /\ hls_attached s' = true)
  /\ (fatal data = true -> type data <> NETWORK_ERROR -> type data <> MEDIA_ERROR ->
      cs = [hls_destroy] /\ hls_attached s' = false).
Proof.
  intros Ha. cbn [step]. rewrite Ha. cbn [fst snd]. unfold on_hls_error.
  destruct data as [f ty]. cbn [fatal type].
  repeat split; intros; subst; try reflexivity.
  - destruct ty; try reflexivity; congruence.
  - destruct ty; try reflexivity; congruence.
Qed.

(** ** Instances and scenarios *)

Import Samples.

Lemma one_session_per_mount_witness :
  startSession_calls (snd (session page_props desktop 0 [Play; Pause; Play]))
  = [startSession "1" "session-0-k3x9q2m1p" (session_metadata desktop)].
Proof.
  exact (proj1 (one_session_per_mount page_props desktop 0 [Play; Pause; Play]
                  eq_refl)).
Defined.

(** C1 (as stated) fails: a player that is mounted and never played (the
    empty sequence of events) issues no [startSession] call at all. *)
Lemma no_play_no_session :
  ~ (forall es,
       forallb play_or_pause es = true ->
       length (startSession_calls (snd (session page_props desktop 0 es))) = 1%nat).
Proof.
  intros H. specialize (H [] eq_refl). vm_compute in H. discriminate.
Qed.

(** C2. The scenario of the specification, on the code: with no position
    report the one heartbeat at 30 s carries the position captured when the
    timer was armed, 0; with the position reported every 10 s the timer is
    re-armed each time and nothing has been sent at 30 s, nor a full 30 s
    later when the reports stop at 50 s. *)
Theorem heartbeat_scenario_misfires :
  heartbeats (snd (session page_props desktop 0 [Play; Elapse 30000]))
  = [sendHeartbeat "session-0-k3x9q2m1p" 0]
  /\ heartbeats
       (snd (session page_props desktop 0
               [Play; Elapse 10000; TimeUpdate 10; Elapse 10000; TimeUpdate 20;
                Elapse 10000; TimeUpdate 30]))
     = []
  /\ heartbeats
       (snd (session page_props desktop 0
               [Play; Elapse 10000; TimeUpdate 10; Elapse 10000; TimeUpdate 20;
                Elapse 10000; TimeUpdate 30; Elapse 10000; TimeUpdate 40;
                Elapse 10000; TimeUpdate 50; Elapse 29999]))
     = [].
Proof. repeat split; vm_compute; reflexivity. Qed.

Lemma heartbeats_starve_witness :
  heartbeats
    (snd (session page_props desktop 0
            (Play :: playback [(250%N, 1 # 4); (250%N, 1 # 2); (29999%N, 30%Q)])))
  = [].
Proof.
  apply heartbeats_starve. cbn. unfold HEARTBEAT_MS, Qeq. cbn.
  repeat split; try lia; discriminate.
Defined.

Lemma ended_reports_watch_time_witness :
  let pre := [Play; Elapse 45000] in
  let s := fst (session page_props desktop 0 pre) in
  existsb is_Unmount pre = false
  /\ existsb is_Play pre = true
  /\ exists t_start,
       In (t_start,
           startSession (string_of_Z (contentId page_props)) (sessionId s)
             (session_metadata desktop))
          (snd (session page_props desktop 0 pre))
       /\ let c := endSession (sessionId s) ((now s - t_start) / 1000) in
          snd (step page_props desktop s Ended)
          = (now s, c) :: (if has_onEnded page_props then [(now s, onEnded)] else [])
          /\ in_flight (fst (step page_props desktop s Ended)) = in_flight s ++ [c].
Proof.
  split; [reflexivity|]. split; [reflexivity|].
  exact (ended_reports_watch_time page_props desktop 0 [Play; Elapse 45000]
           eq_refl eq_refl).
Defined.

(** C4 (as stated) fails: replaying after the end ends the same session a
    second time. *)
Lemma endSession_repeats_on_replay :
  endSession_calls
    (snd (session page_props desktop 0
            [Play; Elapse 45000; Ended; Play; Elapse 45000; Ended]))
  = [endSession "session-0-k3x9q2m1p" 45; endSession "session-0-k3x9q2m1p" 90]
  /\ ~ (forall es,
          (length (endSession_calls (snd (session page_props desktop 0 es))) <= 1)%nat).
Proof.
  split; [vm_compute; reflexivity|].
  intros H.
  specialize (H [Play; Elapse 45000; Ended; Play; Elapse 45000; Ended]).
  vm_compute in H. lia.
Qed.

Lemma single_heartbeat_timer_witness :
  timers (fst (session page_props desktop 0 [Play; Elapse 30000; Unmount])) = []
  /\ heartbeats
       (snd (run page_props desktop
               (fst (session page_props desktop 0 [Play; Elapse 30000; Unmount]))
               [Play; Elapse 60000]))
     = [].
Proof.
  destruct (single_heartbeat_timer page_props desktop 0
              [Play; Elapse 30000; Unmount]) as (_ & _ & H).
  destruct (H eq_refl) as [Ht Hh]. split; [exact Ht | apply Hh].
Defined.

(** C7 (as stated) fails: heartbeat requests are not awaited, so one that
    is still pending when the next interval elapses overlaps the next. *)
Lemma heartbeats_overlap_in_flight :
  heartbeats_in_flight
    (fst (session page_props desktop 0 [Play; Elapse 30000; Elapse 30000]))
  = 2%nat
  /\ ~ (forall es,
          (heartbeats_in_flight (fst (session page_props desktop 0 es)) <= 1)%nat).
Proof.
  split; [vm_compute; reflexivity|].
  intros H. specialize (H [Play; Elapse 30000; Elapse 30000]).
  vm_compute in H. lia.
Qed.

Lemma fault_tiering_witness :
  let s := fst (mount page_props desktop 0) in
  calls (snd (step page_props desktop s
                (HlsError {| fatal := true; type := NETWORK_ERROR |})))
  = [hls_startLoad]
  /\ calls (snd (step page_props desktop s
                   (HlsError {| fatal := true; type := KEY_SYSTEM_ERROR |})))
     = [hls_destroy]
  /\ calls (snd (step page_props desktop s
                   (HlsError {| fatal := false; type := NETWORK_ERROR |})))
     = [].
Proof.
  cbv zeta. split; [|split].
  - apply (fault_tiering page_props desktop (fst (mount page_props desktop 0))
             {| fatal := true; type := NETWORK_ERROR |} eq_refl); reflexivity.
  - apply (fault_tiering page_props desktop (fst (mount page_props desktop 0))
             {| fatal := true; type := KEY_SYSTEM_ERROR |} eq_refl);
      [reflexivity | discriminate | discriminate].
  - apply (fault_tiering page_props desktop (fst (mount page_props desktop 0))
             {| fatal := false; type := NETWORK_ERROR |} eq_refl); reflexivity.
Defined.

(** The scenario of the specification up to the end of the video. *)
Example scenario_play_to_end :
  calls (snd (session page_props desktop 0 [Play; Elapse 45000; Ended; Unmount]))
  = [hls_loadSource (videoUrl page_props); hls_attachMedia;
     startSession "1" "session-0-k3x9q2m1p" (session_metadata desktop);
     sendHeartbeat "session-0-k3x9q2m1p" 0;
     endSession "session-0-k3x9q2m1p" 45; onEnded; hls_destroy].
Proof. vm_compute. reflexivity. Qed.

End PlayerProps.

(** * Further properties of the analytics client *)

Module ClientMore.

Import Analytics ClientOps.
Local Open Scope list_scope.

(** ** Everything after the transport call is local *)

Lemma local_step_refl (w : world) : local_step w w.
Proof. repeat split. Qed.

Lemma local_step_trans (a b c : world) :
  local_step a b -> local_step b c -> local_step a c.
Proof. intros (?&?&?) (?&?&?). repeat split; congruence. Qed.

Lemma unit_draws_local (w w' : world) :
  local_step w w' -> unit_draws w -> unit_draws w'.
Proof. intros (_ & _ & Hr) Hu k. rewrite Hr. apply Hu. Qed.

Lemma Array_from_at_each (f : nat -> M value) (ok : world -> Prop)
    (good : nat -> value -> Prop) :
  (forall w w', local_step w w' -> ok w -> ok w') ->
  (forall i w, exists v w', f i w = (Returned v, w') /\ local_step w w'
                            /\ (ok w -> good i v)) ->
  forall n start w,
    exists items w',
      Array_from_at start n f w = (Returned items, w')
      /\ local_step w w'
      /\ (ok w -> Forall2 good (seq start n) items).
Proof.
  intros Hok Hf. induction n as [|n IH]; intros start w; cbn.
  - exists [], w. split; [reflexivity|]. split; [apply local_step_refl|].
    intros _. constructor.
  - destruct (Hf start w) as (v & w1 & Hv & Hl1 & Hg).
    destruct (IH (S start) w1) as (rest & w2 & Hrest & Hl2 & Hall).
    exists (v :: rest), w2. unfold bind. rewrite Hv, Hrest.
    split; [reflexivity|]. split; [eapply local_step_trans; eassumption|].
    intros Hu. constructor; [now apply Hg|]. apply Hall. eapply Hok; eassumption.
Qed.

Lemma Forall2_seq_nth (good : nat -> value -> Prop) (items : list value) :
  forall n start,
    Forall2 good (seq start n) items ->
    length items = n
    /\ forall k v, nth_error items k = Some v -> good (start + k)%nat v.
Proof.
  induction items as [|x items IH]; intros n start H.
  - inversion H as [Hn|]. destruct n; [|discriminate]. split; [reflexivity|].
    intros [|k] v Hk; discriminate.
  - destruct n as [|n]; [inversion H|]. cbn in H. inversion H as [|? ? ? ? Hx Hrest]; subst.
    destruct (IH n (S start) Hrest) as [Hlen Hnth].
    split; [cbn; now rewrite Hlen|].
    intros [|k] v Hk; cbn in Hk.
    + injection Hk as <-. now rewrite Nat.add_0_r.
    + rewrite <- Nat.add_succ_comm. now apply Hnth.
Qed.

(** ** Bounds on floors *)

Lemma Qfloor_between (a b : Z) (x : Q) :
  (inject_Z a <= x)%Q -> (x < inject_Z b)%Q -> a <= Qfloor x < b.
Proof.
  intros Ha Hb. split.
  - rewrite <- (Qfloor_Z a). now apply Qfloor_resp_le.
  - rewrite Zlt_Qlt. eapply Qle_lt_trans; [apply Qfloor_le | exact Hb].
Qed.

Lemma scaled_draw_between (base span : Z) (r : Q) :
  0 < span -> (0 <= r)%Q -> (r < 1)%Q ->
  base <= Qfloor (inject_Z base + r * inject_Z span) <= base + span - 1.
Proof.
  intros Hs H0 H1.
  assert (Hspan : (inject_Z 0 < inject_Z span)%Q) by (rewrite <- Zlt_Qlt; exact Hs).
  change (inject_Z 0) with 0%Q in Hspan.
  destruct (Qfloor_between base (base + span) (inject_Z base + r * inject_Z span)).
  - assert (0 <= r * inject_Z span)%Q by (apply Qmult_le_0_compat; [assumption | now apply Qlt_le_weak]).
    lra.
  - rewrite inject_Z_plus.
    assert (r * inject_Z span < 1 * inject_Z span)%Q
      by (apply Qmult_lt_compat_r; assumption).
    lra.
  - lia.
Qed.

(** ** The fallback recommendations *)

Lemma mock_recommendation_entry (i : nat) (w : world) :
  exists v w',
    mock_recommendation i w = (Returned v, w')
    /\ local_step w w'
    /\ exists d vw,
         v = recommendation_entry i d vw
         /\ (unit_draws w -> 300 <= d <= 899 /\ 10000 <= vw <= 99999).
Proof.
  unfold mock_recommendation, bind, Math_random, ret, floorQ.
  eexists; eexists. split; [reflexivity|]. split; [repeat split|].
  eexists; eexists. split; [reflexivity|].
  intros Hu. cbn [draws set_draws random].
  destruct (Hu (draws w)) as [Ha Hb]. destruct (Hu (S (draws w))) as [Hc Hd].
  split.
  - apply (scaled_draw_between 300 600); [lia | assumption | assumption].
  - apply (scaled_draw_between 10000 90000); [lia | assumption | assumption].
Qed.

Lemma getMockRecommendations_entries (limit : Z) (w : world) :
  exists items w',
    getMockRecommendations limit w = (Returned (Arr items), w')
    /\ local_step w w'
    /\ (length items <= 8)%nat
    /\ Forall2 (fun i v => exists d vw, v = recommendation_entry i d vw)
         (seq 0 (length items)) items
    /\ (unit_draws w ->
        Forall (fun v => exists i d vw,
                  v = recommendation_entry i d vw
                  /\ 300 <= d <= 899 /\ 10000 <= vw <= 99999) items).
Proof.
  unfold getMockRecommendations, bind.
  set (n := ToLength (Z.min limit 8)).
  assert (Hn : (n <= 8)%nat) by (subst n; unfold ToLength; lia).
  assert (Hshape_each : forall i w0, exists v w1,
            mock_recommendation i w0 = (Returned v, w1) /\ local_step w0 w1
            /\ (True -> exists d vw, v = recommendation_entry i d vw)).
  { intros i w0. destruct (mock_recommendation_entry i w0)
      as (v & w1 & Hv & Hl & d & vw & He & _).
    exists v, w1. split; [assumption|]. split; [assumption|].
    intros _. now exists d, vw. }
  assert (Hbound_each : forall i w0, exists v w1,
            mock_recommendation i w0 = (Returned v, w1) /\ local_step w0 w1
            /\ (unit_draws w0 ->
                exists d vw, v = recommendation_entry i d vw
                             /\ 300 <= d <= 899 /\ 10000 <= vw <= 99999)).
  { intros i w0. destruct (mock_recommendation_entry i w0)
      as (v & w1 & Hv & Hl0 & d & vw & He & Hb).
    exists v, w1. split; [assumption|]. split; [assumption|].
    intros Hu. exists d, vw.
    split; [assumption | now apply Hb]. }
  destruct (Array_from_at_each mock_recommendation (fun _ => True) _
              (fun _ _ _ _ => I) Hshape_each n 0%nat w)
    as (items & w' & Hrun & Hl & Hshape).
  destruct (Array_from_at_each mock_recommendation unit_draws _
              unit_draws_local Hbound_each n 0%nat w)
    as (items2 & w2 & Hrun2 & _ & Hbounds).
  rewrite Hrun in Hrun2. injection Hrun2 as <- <-.
  specialize (Hshape I).
  destruct (Forall2_seq_nth _ _ _ _ Hshape) as [Hlen _].
  exists items, w'. rewrite Hrun, Hlen.
  split; [reflexivity|]. split; [assumption|]. split; [assumption|].
  split; [assumption|].
  intros Hu. specialize (Hbounds Hu).
  clear - Hbounds. revert Hbounds. generalize (seq 0 n).
  intros l H. induction H as [|i v l items Hx _ IH]; constructor; [|assumption].
  destruct Hx as (d & vw & He & Hb). now exists i, d, vw.
Qed.


Lemma fallback_world (endpoint : string) (options : option RequestInit) (w : world) :
  transport_failed (network w (request_for endpoint options w)) = true ->
  exists d,
    fetch endpoint options w
    = (Returned Null,
       set_console (console w ++ [d]) (settled w (request_for endpoint options w))).
Proof.
  intros Hfail.
  destruct (ClientProps.fetch_returns endpoint options w) as (log & Hrun & Hlen).
  cbv zeta in Hrun, Hlen. rewrite Hfail in Hlen.
  rewrite (ClientProps.failed_value _ Hfail) in Hrun.
  destruct log as [|d [|? ?]]; try discriminate. now exists d.
Qed.

Lemma entries_member (field : string) (g : nat -> value) (items : list value) :
  (forall i d vw, opt_get (recommendation_entry i d vw) field = g i) ->
  forall l,
    Forall2 (fun i v => exists d vw, v = recommendation_entry i d vw) l items ->
    map (fun v => opt_get v field) items = map g l.
Proof.
  intros Hg l H.
  induction H as [|i v l items (d & vw & ->) _ IH]; cbn [map]; [reflexivity|].
  now rewrite IH, Hg.
Qed.

Ltac distinct :=
  repeat (apply NoDup_cons; [cbn; intuition discriminate|]); apply NoDup_nil.

Lemma first_ids_distinct (n : nat) :
  (n <= 8)%nat ->
  NoDup (map (fun i => Str ("rec-" ++ string_of_nat i)) (seq 0 n)).
Proof.
  intros Hn.
  do 9 (destruct n as [|n]; [vm_compute; distinct|]). lia.
Qed.

Lemma first_titles_distinct (n : nat) :
  (n <= 8)%nat ->
  NoDup (map (fun i => index titles (i mod length titles)) (seq 0 n)).
Proof.
  intros Hn.
  do 9 (destruct n as [|n]; [vm_compute; distinct|]). lia.
Qed.

(** X1. When the transport is unavailable and [Math.random()] stays in
    [0, 1), every fallback recommendation has a whole-number duration between
    300 and 899 seconds and a whole-number view count between 10000 and
    99999. *)
Theorem fallback_recommendation_ranges (userId : option string) (limit : Z)
    (w : world) :
  transport_failed
    (network w (request_for (recommendations_endpoint userId limit) None w)) = true ->
  unit_draws w ->
  exists items w',
    getRecommendations userId (Some limit) w = (Returned (Arr items), w')
    /\ Forall (fun v => integer_between 300 899 (opt_get v "duration")
                        /\ integer_between 10000 99999 (opt_get v "views")) items.
Proof.
  intros Hfail Hu.
  destruct (fallback_world _ None w Hfail) as (d & Hrun).
  set (w1 := set_console _ _) in Hrun.
  destruct (getMockRecommendations_entries limit w1)
    as (items & w2 & Hm & _ & _ & _ & Hb).
  exists items, w2.
  split; [unfold getRecommendations, bind, limit_or_default; rewrite Hrun; exact Hm|].
  assert (Hu1 : unit_draws w1) by exact Hu.
  specialize (Hb Hu1). eapply Forall_impl; [|exact Hb].
  intros v (i & dur & vw & -> & Hd & Hv). split.
  - exists dur. split; [reflexivity | exact Hd].
  - exists vw. split; [reflexivity | exact Hv].
Qed.

(** X2. When the transport is unavailable, the k-th fallback recommendation
    (counting from 0) has id "rec-k", the k-th title of the built-in list
    and the (k mod 5)-th channel; ids are pairwise distinct, and so are
    titles. *)
Theorem fallback_recommendations_listed (userId : option string) (limit : Z)
    (w : world) :
  transport_failed
    (network w (request_for (recommendations_endpoint userId limit) None w)) = true ->
  exists items w',
    getRecommendations userId (Some limit) w = (Returned (Arr items), w')
    /\ (forall k v,
          nth_error items k = Some v ->
          opt_get v "id" = Str ("rec-" ++ string_of_nat k)
          /\ opt_get v "title" = index titles k
          /\ opt_get v "channel" = index channels (k mod 5))
    /\ NoDup (map (fun v => opt_get v "id") items)
    /\ NoDup (map (fun v => opt_get v "title") items).
Proof.
  intros Hfail.
  destruct (fallback_world _ None w Hfail) as (d & Hrun).
  set (w1 := set_console _ _) in Hrun.
  destruct (getMockRecommendations_entries limit w1)
    as (items & w2 & Hm & _ & Hlen & Hshape & _).
  exists items, w2.
  split; [unfold getRecommendations, bind, limit_or_default; rewrite Hrun; exact Hm|].
  split.
  - intros k v Hk.
    destruct (Forall2_seq_nth _ _ _ _ Hshape) as [_ Hnth].
    destruct (Hnth k v Hk) as (dur & vw & ->). cbn [Nat.add].
    assert (Hk8 : (k < 8)%nat).
    { assert (k < length items)%nat by (apply nth_error_Some; congruence). lia. }
    split; [reflexivity|]. split; [|reflexivity].
    change (opt_get (recommendation_entry k dur vw) "title")
      with (index titles (k mod length titles)).
    now rewrite Nat.mod_small.
  - split.
    + rewrite (entries_member "id" (fun i => Str ("rec-" ++ string_of_nat i)))
        with (l := seq 0 (length items)); [|reflexivity | exact Hshape].
      now apply first_ids_distinct.
    + rewrite (entries_member "title" (fun i => index titles (i mod length titles)))
        with (l := seq 0 (length items)); [|reflexivity | exact Hshape].
      now apply first_titles_distinct.
Qed.



(** ** One round trip per operation *)

Lemma fetch_round_trip (endpoint : string) (options : option RequestInit) (w : world) :
  let rq := request_for endpoint options w in
  exists log w1,
    fetch endpoint options w = (Returned (transport_value (network w rq)), w1)
    /\ clock w1 = clock w + Z.of_N (latency w rq)
    /\ console w1 = console w ++ log
    /\ length log = (if transport_failed (network w rq) then 1 else 0)%nat.
Proof.
  intros rq.
  destruct (ClientProps.fetch_returns endpoint options w) as (log & Hrun & Hlen).
  cbv zeta in Hrun, Hlen. fold rq in Hrun, Hlen.
  exists log. eexists. split; [exact Hrun|]. repeat split. exact Hlen.
Qed.

Lemma getMockRecommendations_local (limit : Z) (w : world) :
  exists v w', getMockRecommendations limit w = (Returned v, w') /\ local_step w w'.
Proof.
  destruct (getMockRecommendations_entries limit w) as (items & w' & Hm & Hl & _).
  now exists (Arr items), w'.
Qed.

(** X4. Every client operation returns without throwing after exactly one
    transport round trip: the clock has advanced by the latency of its one
    request, and the console has gained exactly one diagnostic when the
    transport failed and none otherwise. *)
Theorem one_round_trip (op : operation) (w : world) :
  exists v w' log,
    perform op w = (Returned v, w')
    /\ clock w' = clock w + Z.of_N (latency w (request_of op w))
    /\ console w' = console w ++ log
    /\ length log
       = (if transport_failed (network w (request_of op w)) then 1 else 0)%nat.
Proof.
  unfold request_of.
  destruct (fetch_round_trip (endpoint_of op) (options_of op (clock w)) w)
    as (log & w1 & Hrun & Hc & Hl & Hlen).
  cbv zeta in Hrun, Hc, Hl, Hlen.
  set (p := transport_value _) in Hrun.
  destruct op as [c | u l | c | c sid m | sid t | sid t | sid a];
    unfold perform, endpoint_of, options_of in *;
    unfold getStreamInfo, getRecommendations, getViewerStats, startSession,
      sendHeartbeat, endSession, recordInteraction, bind, Date_now;
    rewrite Hrun.
  - destruct (truthy p); cbn [negb]; unfold ret;
      eexists; eexists; exists log; (split; [reflexivity|]); auto.
  - destruct (truthy p); cbn [negb].
    + eexists; eexists; exists log. split; [reflexivity|]. auto.
    + destruct (getMockRecommendations_local (limit_or_default l) w1)
        as (v & w2 & Hm & Hc2 & Hl2 & _).
      exists v, w2, log. split; [exact Hm|]. rewrite Hc2, Hl2. auto.
  - destruct (truthy p); cbn [negb]; unfold Math_random, ret;
      eexists; eexists; exists log; (split; [reflexivity|]); cbn; auto.
  - destruct (truthy p); cbn [negb]; unfold Date_now, ret;
      eexists; eexists; exists log; (split; [reflexivity|]); cbn; auto.
  - eexists; eexists; exists log. split; [reflexivity|]. auto.
  - eexists; eexists; exists log. split; [reflexivity|]. auto.
  - eexists; eexists; exists log. split; [reflexivity|]. auto.
Qed.

(** X5. The boolean commands ([sendHeartbeat], [endSession],
    [recordInteraction]) never throw; they return [false] whenever the
    transport failed or the reply has no truthy [success] member, the
    reply's [success] when it is a boolean, and so [true] only when the
    server acknowledged. *)
Theorem commands_report_acknowledgement (op : operation) (w : world) :
  is_command op = true ->
  exists v w',
    perform op w = (Returned v, w')
    /\ (transport_failed (network w (request_of op w)) = true -> v = Bool false)
    /\ (forall st payload,
          network w (request_of op w) = Responds st (Some payload) ->
          transport_failed (network w (request_of op w)) = false ->
          (forall b, opt_get payload "success" = Bool b -> v = Bool b)
          /\ (truthy (opt_get payload "success") = false -> v = Bool false))
    /\ (v = Bool true ->
        transport_failed (network w (request_of op w)) = false).
Proof.
  intros Hcmd. unfold request_of.
  destruct (fetch_round_trip (endpoint_of op) (options_of op (clock w)) w)
    as (log & w1 & Hrun & _).
  cbv zeta in Hrun.
  set (r := network w _) in *.
  assert (Hres : perform op w
                 = (Returned (or_else (opt_get (transport_value r) "success")
                                (Bool false)), w1)).
  { destruct op; try discriminate;
      unfold perform, endpoint_of, options_of in *;
      unfold sendHeartbeat, endSession, recordInteraction, bind, Date_now, ret;
      rewrite Hrun; reflexivity. }
  eexists; eexists. split; [exact Hres|].
  split; [|split].
  - intros Hf. now rewrite (ClientProps.failed_value r Hf).
  - intros st payload Hr Hok. rewrite Hr in Hok |- *. cbn in Hok |- *.
    rewrite Hok. split.
    + intros b Hb. rewrite Hb. unfold or_else. now destruct b.
    + intros Hb. unfold or_else. now rewrite Hb.
  - intros Hv. destruct (transport_failed r) eqn:Hf; [|reflexivity].
    rewrite (ClientProps.failed_value r Hf) in Hv. discriminate.
Qed.

(** X6. When the transport is unavailable, the session record that
    [startSession] synthesizes is stamped with the time the failure came
    back (the clock at the call plus the request's latency), not earlier
    than the timestamp sent in the request, and its [last_heartbeat] equals
    its [start_time]. *)
Theorem synthesized_session_timestamps (contentId sessionId : string)
    (metadata : option Types.SessionMetadata) (w : world) :
  let rq := request_of (OpStartSession contentId sessionId metadata) w in
  transport_failed (network w rq) = true ->
  exists v w',
    startSession contentId sessionId metadata w = (Returned v, w')
    /\ opt_get v "start_time" = num_of_Z (clock w + Z.of_N (latency w rq))
    /\ opt_get v "last_heartbeat" = opt_get v "start_time"
    /\ opt_get (session_start_body contentId sessionId metadata (clock w)) "timestamp"
       = num_of_Z (clock w)
    /\ clock w <= clock w + Z.of_N (latency w rq).
Proof.
  intros rq Hfail. unfold rq, request_of, endpoint_of, options_of in *.
  destruct (fallback_world _ _ w Hfail) as (d & Hrun).
  unfold startSession, bind, Date_now. rewrite Hrun. cbn.
  eexists; eexists. split; [reflexivity|].
  repeat split. lia.
Qed.

(** ** Instances *)

Lemma offline_unit_draws : unit_draws Samples.offline.
Proof. intros n. split; vm_compute; [discriminate | reflexivity]. Defined.


Lemma fallback_recommendation_ranges_witness :
  exists items w',
    getRecommendations (Some "u1") (Some 3) Samples.offline
    = (Returned (Arr items), w')
    /\ Forall (fun v => integer_between 300 899 (opt_get v "duration")
                        /\ integer_between 10000 99999 (opt_get v "views")) items.
Proof.
  exact (fallback_recommendation_ranges (Some "u1") 3 Samples.offline eq_refl
           offline_unit_draws).
Defined.

Lemma fallback_recommendations_listed_witness :
  exists items w',
    getRecommendations None (Some 8) Samples.offline = (Returned (Arr items), w')
    /\ NoDup (map (fun v => opt_get v "id") items).
Proof.
  destruct (fallback_recommendations_listed None 8 Samples.offline eq_refl)
    as (items & w' & Hr & _ & Hid & _).
  exists items, w'. split; [exact Hr | exact Hid].
Defined.

Lemma commands_report_acknowledgement_witness :
  exists w',
    perform (OpSendHeartbeat "s1" 30) Samples.offline = (Returned (Bool false), w').
Proof.
  destruct (commands_report_acknowledgement (OpSendHeartbeat "s1" 30)
              Samples.offline eq_refl) as (v & w' & Hr & Hfail & _).
  exists w'. rewrite <- (Hfail eq_refl). exact Hr.
Defined.

Lemma synthesized_session_timestamps_witness :
  exists v w',
    startSession "1" "s1" None Samples.offline = (Returned v, w')
    /\ opt_get v "start_time" = num_of_Z 1700000000020.
Proof.
  destruct (synthesized_session_timestamps "1" "s1" None Samples.offline eq_refl)
    as (v & w' & Hr & Hs & _).
  exists v, w'. split; [exact Hr | exact Hs].
Defined.

End ClientMore.

(** * Further properties of the live-stats channel *)

Module ChannelMore.

Import LiveStats Traffic.
Local Open Scope list_scope.

Section Channel.

Variable pf : platform.

Lemma inbound_step (c : channel) (e : event) :
  socket c = Some OPEN -> inbound e = true ->
  socket (step pf c e) = Some OPEN
  /\ delivered (step pf c e) = delivered c ++ parsed pf [e]
  /\ exists log, console (step pf c e) = console c ++ log
                 /\ length log = logged pf [e].
Proof.
  intros Hs He. destruct e as [ | data | | | ]; try discriminate.
  - unfold step, onmessage, parsed, logged. rewrite Hs. cbn.
    destruct (JSON_parse pf data) as [v|]; cbn; rewrite ?app_nil_r.
    + repeat split; auto. exists []. now rewrite app_nil_r.
    + repeat split; auto. eexists. split; reflexivity.
  - unfold step, onerror, parsed, logged. rewrite Hs. cbn. rewrite app_nil_r.
    repeat split; auto. eexists. split; reflexivity.
Qed.

Lemma parsed_cons (e : event) (es : list event) :
  parsed pf (e :: es) = parsed pf [e] ++ parsed pf es.
Proof. unfold parsed. cbn. now rewrite app_nil_r. Qed.

Lemma logged_cons (e : event) (es : list event) :
  logged pf (e :: es) = (logged pf [e] + logged pf es)%nat.
Proof. unfold logged. cbn. destruct e; try destruct (JSON_parse pf _); reflexivity. Qed.

(** X7. While the socket is open, a stretch of messages and error events
    leaves it open; every message that parses reaches the callback exactly
    once and in order of arrival, and every malformed message or error adds
    one console entry without disturbing the messages after it. *)
Theorem open_traffic (es : list event) (c : channel) :
  socket c = Some OPEN ->
  forallb inbound es = true ->
  socket (run pf c es) = Some OPEN
  /\ delivered (run pf c es) = delivered c ++ parsed pf es
  /\ exists log, console (run pf c es) = console c ++ log
                 /\ length log = logged pf es.
Proof.
  revert c. induction es as [|e es IH]; intros c Hs Hall.
  - cbn. rewrite app_nil_r. repeat split; auto. exists []. now rewrite app_nil_r.
  - cbn in Hall. apply andb_prop in Hall as [He Hall].
    destruct (inbound_step c e Hs He) as (Hs1 & Hd1 & log1 & Hc1 & Hl1).
    destruct (IH _ Hs1 Hall) as (Hs2 & Hd2 & log2 & Hc2 & Hl2).
    change (run pf c (e :: es)) with (run pf (step pf c e) es).
    split; [exact Hs2|]. split.
    + rewrite Hd2, Hd1, (parsed_cons e es). symmetry. apply app_assoc.
    + exists (log1 ++ log2). split.
      * rewrite Hc2, Hc1. symmetry. apply app_assoc.
      * rewrite length_app, Hl1, Hl2. symmetry. apply logged_cons.
Qed.

Lemma dead_step (c : channel) (e : event) :
  socket c = None -> step pf c e = c.
Proof.
  intros Hs. unfold step, unsubscribe. rewrite Hs. destruct e; reflexivity.
Qed.

(** X8. When the WebSocket constructor rejects the URL, the failure is
    logged once and the subscription is inert: its unsubscribe is a no-op,
    and nothing that happens later delivers an update or logs anything. *)
Theorem rejected_connection_is_inert (api_url contentId : string)
    (es : list event) :
  accepts_url pf (stats_url api_url contentId) = false ->
  let fresh := connectToLiveStats pf api_url contentId in
  run pf fresh es = fresh
  /\ unsubscribe fresh = fresh
  /\ delivered fresh = []
  /\ length (console fresh) = 1%nat.
Proof.
  intros Hrej fresh.
  assert (Hs : socket fresh = None).
  { unfold fresh, connectToLiveStats. now rewrite Hrej. }
  split; [|split; [|split]].
  - induction es as [|e es IH]; [reflexivity|].
    cbn. rewrite (dead_step fresh e Hs). exact IH.
  - unfold unsubscribe. now rewrite Hs.
  - unfold fresh, connectToLiveStats. now rewrite Hrej.
  - unfold fresh, connectToLiveStats. now rewrite Hrej.
Qed.

End Channel.

Lemma substring_all (s : string) :
  String.substring 0 (String.length s) s = s.
Proof. induction s as [|a s IH]; cbn; [reflexivity | now rewrite IH]. Qed.

Lemma substring_none (s : string) : String.substring 0 0 s = ""%string.
Proof. destruct s; reflexivity. Qed.

(** X9. The stats socket address swaps the scheme of an HTTP(S) API
    address for the WebSocket one ([http] becomes [ws], and so [https]
    becomes [wss]), keeps the rest of the address verbatim, and appends the
    stats path and the content id. *)
Theorem stats_url_scheme (rest contentId : string) :
  stats_url ("http" ++ rest) contentId
  = ("ws" ++ rest ++ "/ws/watch/stats/" ++ contentId)%string.
Proof.
  unfold stats_url, replace_first.
  replace (String.index 0 "http" ("http" ++ rest)) with (Some 0%nat).
  2:{ cbn. now destruct rest. }
  rewrite substring_none.
  cbn [String.length Nat.add append Nat.sub String.substring].
  rewrite Nat.sub_0_r, substring_all. reflexivity.
Qed.

Lemma open_traffic_witness :
  delivered
    (run Samples.tiny_json
       (run Samples.tiny_json
          (connectToLiveStats Samples.tiny_json "https://api.intuitv.app" "1")
          [Opened])
       [Message "{}"; Message "oops"; Errored; Message "{}"])
  = [] ++ parsed Samples.tiny_json
            [Message "{}"; Message "oops"; Errored; Message "{}"].
Proof.
  exact (proj1 (proj2 (open_traffic Samples.tiny_json
                         [Message "{}"; Message "oops"; Errored; Message "{}"]
                         (run Samples.tiny_json
                            (connectToLiveStats Samples.tiny_json
                               "https://api.intuitv.app" "1") [Opened])
                         eq_refl eq_refl))).
Defined.

Lemma rejected_connection_is_inert_witness :
  let fresh := connectToLiveStats ws_only "api.intuitv.app" "1" in
  run ws_only fresh [Opened; Message "{}"; Unsubscribe] = fresh.
Proof.
  exact (proj1 (rejected_connection_is_inert ws_only "api.intuitv.app" "1"
                  [Opened; Message "{}"; Unsubscribe] eq_refl)).
Defined.

End ChannelMore.

(** * Properties of the volume controls and the time display *)

Module ControlsProps.

Import Controls.
Local Open Scope list_scope.

(** What every history of volume actions keeps true of an attached element. *)
Lemma apply_in_step (e : video) (p : panel) (c : control) :
  el_volume e = volume p ->
  (0 <= volume p)%Q /\ (volume p <= 1)%Q ->
  (muted p = true -> silent e = true) ->
  exists e' p',
    apply (Some e, p) c = (Some e', p')
    /\ el_volume e' = volume p'
    /\ ((0 <= volume p')%Q /\ (volume p' <= 1)%Q)
    /\ (muted p' = true -> silent e' = true).
Proof.
  intros Hv Hr Hm. destruct c as [v|]; cbn [apply fst snd].
  - unfold handleVolumeChange.
    destruct (accepts_volume v) eqn:Hacc.
    + eexists; eexists. split; [reflexivity|]. cbn.
      unfold accepts_volume in Hacc. apply andb_prop in Hacc as [H0 H1].
      apply Qle_bool_iff in H0, H1.
      repeat split; auto.
      intros Hz. unfold silent. cbn. rewrite Hz. apply orb_true_r.
    + exists e, p. auto.
  - unfold toggleMute. eexists; eexists. split; [reflexivity|]. cbn.
    repeat split; try tauto.
    intros Hz. unfold silent. cbn. now rewrite Hz.
Qed.

(** X10. Whatever sequence of volume changes and mute toggles the viewer
    performs on a mounted player, the element's volume and the volume shown
    stay equal and within [0, 1], and whenever the control bar shows the
    muted glyph the element is in fact silent. *)
Theorem volume_controls_in_step (cs : list control) :
  exists e p,
    operate (Some initial_video, initial_panel) cs = (Some e, p)
    /\ el_volume e = volume p
    /\ (0 <= volume p)%Q /\ (volume p <= 1)%Q
    /\ (shows_muted p = true -> silent e = true).
Proof.
  assert (H : forall cs e p,
             el_volume e = volume p ->
             (0 <= volume p)%Q /\ (volume p <= 1)%Q ->
             (muted p = true -> silent e = true) ->
             exists e' p',
               operate (Some e, p) cs = (Some e', p')
               /\ el_volume e' = volume p'
               /\ ((0 <= volume p')%Q /\ (volume p' <= 1)%Q)
               /\ (muted p' = true -> silent e' = true)).
  { clear cs. induction cs as [|c cs IH]; intros e p Hv Hr Hm.
    - exists e, p. auto.
    - destruct (apply_in_step e p c Hv Hr Hm) as (e1 & p1 & Hs & Hv1 & Hr1 & Hm1).
      unfold operate in *. cbn [fold_left]. rewrite Hs. now apply IH. }
  destruct (H cs initial_video initial_panel) as (e & p & Hrun & Hv & [H0 H1] & Hm).
  - reflexivity.
  - cbn. split; discriminate.
  - discriminate.
  - exists e, p. repeat split; auto.
    unfold shows_muted. intros Hs. apply orb_prop in Hs as [Hs | Hs]; [auto|].
    unfold silent. rewrite Hv, Hs. apply orb_true_r.
Qed.

(** X11. A volume the element accepts is written to the element and shown
    back on the slider, and the muted glyph then shows exactly when that
    volume is zero. *)
Theorem volume_round_trip (v : Q) (e : video) (p : panel) :
  (0 <= v)%Q -> (v <= 1)%Q ->
  exists e' p',
    handleVolumeChange v (Some e) p = Done (Some e') p'
    /\ el_volume e' = v
    /\ (slider_value p' == v)%Q
    /\ shows_muted p' = Qeq_bool v 0.
Proof.
  intros H0 H1. unfold handleVolumeChange, accepts_volume.
  apply Qle_bool_iff in H0, H1. rewrite H0, H1. cbn [andb].
  eexists; eexists. split; [reflexivity|]. cbn.
  split; [reflexivity|]. split.
  - unfold slider_value. cbn. destruct (Qeq_bool v 0) eqn:Hz; [|reflexivity].
    apply Qeq_bool_iff in Hz. now symmetry.
  - unfold shows_muted. cbn. apply orb_diag.
Qed.

(** X12. Muting and then unmuting restores the control bar exactly (the
    volume is remembered, and the slider reads zero only while muted), and
    leaves the element's volume untouched and its muted flag equal to the
    state's. *)
Theorem mute_round_trip (e : video) (p : panel) :
  let st1 := toggleMute (Some e) p in
  let st2 := toggleMute (fst st1) (snd st1) in
  snd st2 = p
  /\ fst st2 = Some {| el_volume := el_volume e; el_muted := muted p |}
  /\ volume (snd st1) = volume p
  /\ (muted p = false ->
      slider_value (snd st1) = 0%Q /\ slider_value (snd st2) = volume p).
Proof.
  destruct p as [vol m]. cbn. rewrite negb_involutive.
  split; [reflexivity|]. split; [reflexivity|]. split; [reflexivity|].
  intros ->. split; reflexivity.
Qed.

(** X13. Changing the volume never clears the element's muted flag: after
    muting, dragging the slider to a positive volume makes the control bar
    show sound at that volume while the element stays muted. *)
Theorem volume_change_leaves_element_muted (v : Q) (e : video) (p : panel) :
  muted p = false -> (0 < v)%Q -> (v <= 1)%Q ->
  exists e' p',
    operate (Some e, p) [ToggleMute; VolumeChange v] = (Some e', p')
    /\ shows_muted p' = false
    /\ slider_value p' = v
    /\ el_muted e' = true
    /\ silent e' = true.
Proof.
  intros Hm H0 H1. unfold operate. cbn [fold_left apply fst snd toggleMute].
  unfold handleVolumeChange, accepts_volume. cbn [el_muted el_volume muted volume].
  assert (Ha : Qle_bool 0 v = true) by (apply Qle_bool_iff; lra).
  assert (Hb : Qle_bool v 1 = true) by (now apply Qle_bool_iff).
  assert (Hz : Qeq_bool v 0 = false).
  { destruct (Qeq_bool v 0) eqn:Hz; [|reflexivity].
    apply Qeq_bool_iff in Hz. lra. }
  rewrite Ha, Hb. cbn [andb].
  eexists; eexists. split; [reflexivity|].
  unfold shows_muted, slider_value, silent. cbn. rewrite Hz, Hm. auto.
Qed.

(** ** formatTime *)

Lemma Qfloor_unique (k : Z) (x : Q) :
  (inject_Z k <= x)%Q -> (x < inject_Z k + 1)%Q -> Qfloor x = k.
Proof.
  intros Ha Hb.
  destruct (ClientMore.Qfloor_between k (k + 1) x Ha).
  - rewrite inject_Z_plus. exact Hb.
  - lia.
Qed.

Lemma split_minutes (x : Q) :
  (0 <= x)%Q ->
  Qfloor (x / 60) = Qfloor x / 60
  /\ Qfloor (Qrem x 60) = Qfloor x mod 60.
Proof.
  intros Hx.
  set (n := Qfloor x).
  assert (Hlo : (inject_Z n <= x)%Q) by apply Qfloor_le.
  assert (Hhi : (x < inject_Z n + 1)%Q).
  { pose proof (Qlt_floor x) as H. rewrite inject_Z_plus in H. exact H. }
  pose proof (Z.div_mod n 60 ltac:(lia)) as Hdm.
  pose proof (Z.mod_pos_bound n 60 ltac:(lia)) as Hr.
  set (q := n / 60) in *. set (r := n mod 60) in *.
  assert (Hn : (inject_Z n == 60 * inject_Z q + inject_Z r)%Q).
  { rewrite Hdm, inject_Z_plus, inject_Z_mult. reflexivity. }
  assert (Hr0 : (0 <= inject_Z r)%Q).
  { change 0%Q with (inject_Z 0). rewrite <- Zle_Qle. lia. }
  assert (Hr1 : (inject_Z r <= 59)%Q).
  { change 59%Q with (inject_Z 59). rewrite <- Zle_Qle. lia. }
  assert (Hy : (x == 60 * (x / 60))%Q) by (field; discriminate).
  assert (Hq : Qfloor (x / 60) = q).
  { apply Qfloor_unique; set (y := (x / 60)%Q) in *; lra. }
  split; [exact Hq|].
  unfold Qrem, Qtrunc.
  assert (Hpos : Qle_bool 0 (x / 60) = true).
  { apply Qle_bool_iff. set (y := (x / 60)%Q) in *. lra. }
  rewrite Hpos, Hq. apply Qfloor_unique; lra.
Qed.

Lemma two_digits (m : Z) :
  0 <= m < 60 ->
  padStart0 2 (string_of_Z m)
  = ((if (m <? 10)%Z then "0" else "") ++ string_of_Z m)%string
  /\ String.length (padStart0 2 (string_of_Z m)) = 2%nat.
Proof.
  intros Hm. rewrite <- (Z2Nat.id m) by lia.
  assert (Hk : (Z.to_nat m < 60)%nat) by lia.
  revert Hk. generalize (Z.to_nat m) as k. clear.
  intros k Hk.
  do 60 (destruct k as [|k]; [split; reflexivity|]).
  lia.
Qed.

(** X14. For a non-negative time, [formatTime] prints the whole minutes
    (not wrapped into hours), a colon, and the remaining whole seconds as
    exactly two digits; fractions of a second are dropped. *)
Theorem formatTime_minutes_seconds (seconds : Q) :
  (0 <= seconds)%Q ->
  let n := Qfloor seconds in
  exists ss,
    formatTime seconds = (string_of_Z (n / 60) ++ ":" ++ ss)%string
    /\ ss = ((if (n mod 60 <? 10)%Z then "0" else "") ++ string_of_Z (n mod 60))%string
    /\ String.length ss = 2%nat.
Proof.
  intros Hs n.
  destruct (split_minutes seconds Hs) as [Hq Hr].
  destruct (two_digits (n mod 60)) as [Hpad Hlen];
    [apply Z.mod_pos_bound; lia|].
  exists (padStart0 2 (string_of_Z (n mod 60))).
  split; [|split; assumption].
  unfold formatTime. cbv zeta. fold n in Hq, Hr. now rewrite Hq, Hr.
Qed.

(** ** Instances *)

Lemma volume_controls_in_step_witness :
  exists e p,
    operate (Some initial_video, initial_panel)
      [ToggleMute; VolumeChange (1 # 2); VolumeChange 0; ToggleMute]
    = (Some e, p)
    /\ el_volume e = volume p.
Proof.
  destruct (volume_controls_in_step
              [ToggleMute; VolumeChange (1 # 2); VolumeChange 0; ToggleMute])
    as (e & p & Hrun & Hv & _).
  exists e, p. split; [exact Hrun | exact Hv].
Defined.

Lemma volume_round_trip_witness :
  exists e' p',
    handleVolumeChange (3 # 10) (Some initial_video) initial_panel
    = Done (Some e') p'
    /\ el_volume e' = (3 # 10)%Q
    /\ (slider_value p' == 3 # 10)%Q
    /\ shows_muted p' = Qeq_bool (3 # 10) 0.
Proof.
  apply (volume_round_trip (3 # 10) initial_video initial_panel);
    vm_compute; discriminate.
Defined.

Lemma mute_round_trip_witness :
  slider_value (snd (toggleMute (Some initial_video) initial_panel)) = 0%Q
  /\ slider_value
       (snd (toggleMute
               (fst (toggleMute (Some initial_video) initial_panel))
               (snd (toggleMute (Some initial_video) initial_panel))))
     = volume initial_panel.
Proof.
  exact (proj2 (proj2 (proj2 (mute_round_trip initial_video initial_panel))) eq_refl).
Defined.

Lemma volume_change_leaves_element_muted_witness :
  exists e' p',
    operate (Some initial_video, initial_panel) [ToggleMute; VolumeChange (1 # 2)]
    = (Some e', p')
    /\ shows_muted p' = false
    /\ slider_value p' = (1 # 2)%Q
    /\ el_muted e' = true
    /\ silent e' = true.
Proof.
  apply (volume_change_leaves_element_muted (1 # 2) initial_video initial_panel);
    [reflexivity | reflexivity | vm_compute; discriminate].
Defined.

Lemma formatTime_minutes_seconds_witness :
  exists ss,
    formatTime (7505 # 100)
    = (string_of_Z (Qfloor (7505 # 100) / 60) ++ ":" ++ ss)%string
    /\ ss = ((if (Qfloor (7505 # 100) mod 60 <? 10)%Z then "0" else "")
             ++ string_of_Z (Qfloor (7505 # 100) mod 60))%string
    /\ String.length ss = 2%nat.
Proof.
  apply (formatTime_minutes_seconds (7505 # 100)). vm_compute. discriminate.
Defined.

End ControlsProps.

(** * Further properties of the player *)

Module PlayerMore.

Import Types WebPlayer Beat.
Local Open Scope list_scope.

Section Player.

Variables (P : props) (B : host).

Lemma pulse_at_frame (p : bool) (ct : Q) (s st : state) :
  heartbeat_deps st = heartbeat_deps s -> sessionId st = sessionId s ->
  mounted st = mounted s -> timers st = timers s ->
  heartbeat_cleanup st = heartbeat_cleanup s -> now st = now s ->
  pulse_at p ct s -> pulse_at p ct st.
Proof.
  unfold pulse_at. intros -> -> -> -> -> ->. auto.
Qed.

(** One commit brings the heartbeat timer up to date with the render. *)
Lemma commit_pulse (r : state) (p0 : bool) (ct0 : Q) :
  mounted r = true ->
  pulse_at p0 ct0 r ->
  let s' := fst (fst (commit P B r)) in
  pulse s'
  /\ (playing r = true -> (p0 = false \/ ~ ct0 == currentTime r) ->
      exists tm, timers s' = [tm] /\ due tm = now r + HEARTBEAT_MS)
  /\ (p0 = playing r -> ct0 == currentTime r -> timers s' = timers r).
Proof.
  intros Hm (Hhd & Hts).
  destruct r as [t ts nh fl pl ct sid st sref m att hc sd hd hcl].
  cbn in Hm, Hhd, Hts. subst m hd. cbn [andb] in Hts.
  unfold commit, pulse, pulse_at.
  cbn.
  rewrite String.eqb_refl, andb_true_r.
  destruct (Qeq_bool ct0 ct) eqn:Hq.
  - apply Qeq_bool_iff in Hq.
    destruct p0, pl; cbn.
    all: destruct (changed deps_session_eqb sd _), st; cbn.
    all: try destruct Hts as (tm & -> & -> & Hsid & Hct & Hdue).
    all: try destruct Hts as (-> & ->).
    all: cbn; rewrite ?Nat.eqb_refl; cbn.
    all: (split; [|split]);
      [ eexists; split; [|split; [reflexivity|]]
      | try (intros _ [A | A]; [discriminate A | now elim A]); try discriminate
      | try discriminate; try reflexivity ].
    all: try (exact Hq).
    all: try (reflexivity).
    all: try (split; reflexivity).
    all: try (exists tm; split; [reflexivity|]; split; [reflexivity|];
              split; [assumption|]; split; [assumption | exact Hdue]).
    all: try (eexists; repeat split; cbn; try reflexivity;
              unfold HEARTBEAT_MS; lia).
    all: try (intros _ _; eexists; split; reflexivity).
  - assert (Hne : ~ ct0 == ct).
    { intros H. apply Qeq_bool_iff in H. congruence. }
    rewrite andb_false_r. cbn.
    destruct p0, pl; cbn.
    all: destruct (changed deps_session_eqb sd _), st; cbn.
    all: try destruct Hts as (tm & -> & -> & Hsid & Hct & Hdue).
    all: try destruct Hts as (-> & ->).
    all: cbn; rewrite ?Nat.eqb_refl; cbn.
    all: (split; [|split]);
      [ exists ct; split; [reflexivity|split; [reflexivity|]]
      | try discriminate
      | try discriminate; try (intros _ A; now elim Hne) ].
    all: try (split; reflexivity).
    all: try (eexists; repeat split; cbn; try reflexivity;
              unfold HEARTBEAT_MS; lia).
    all: try (intros _ _; eexists; split; reflexivity).
Qed.


Lemma commit_frame (r : state) :
  let s' := fst (fst (commit P B r)) in
  mounted s' = mounted r /\ hls_attached s' = hls_attached r
  /\ playing s' = playing r /\ currentTime s' = currentTime r
  /\ now s' = now r /\ sessionId s' = sessionId r.
Proof.
  destruct (PlayerProps.commit_spec P B r) as (s1 & Hc & Hv & _).
  rewrite Hc. cbn [fst]. destruct Hv as (A & C & D & E & F & G & _).
  repeat split; assumption.
Qed.

(** A render, with its possible re-render, does the same. *)
Lemma flush_pulse (fuel : nat) (s : state) (p0 : bool) (ct0 : Q) :
  mounted s = true -> pulse_at p0 ct0 s ->
  let s' := fst (flush fuel P B s) in
  pulse s'
  /\ hls_attached s' = hls_attached s
  /\ currentTime s' = currentTime s
  /\ (playing s = true -> (p0 = false \/ ~ ct0 == currentTime s) ->
      exists tm, timers s' = [tm] /\ due tm = now s + HEARTBEAT_MS)
  /\ (p0 = playing s -> ct0 == currentTime s -> timers s' = timers s).
Proof.
  intros Hm Hp.
  destruct (PlayerProps.commit_spec P B s) as (s1 & Hc & Hv & _ & Hst & _).
  destruct (commit_pulse s p0 ct0 Hm Hp) as (Hp1 & Harm & Hkeep).
  destruct (commit_frame s) as (Fm & Fa & Fp & Fc & _).
  rewrite Hc in Hp1, Harm, Hkeep, Fm, Fa, Fp, Fc. cbn [fst] in *.
  assert (Hdone : pulse s1 /\ hls_attached s1 = hls_attached s
                  /\ currentTime s1 = currentTime s
                  /\ (playing s = true -> (p0 = false \/ ~ ct0 == currentTime s) ->
                      exists tm, timers s1 = [tm] /\ due tm = now s + HEARTBEAT_MS)
                  /\ (p0 = playing s -> ct0 == currentTime s -> timers s1 = timers s))
    by (repeat split; assumption).
  destruct fuel as [|fuel]; cbn [flush]; rewrite Hc;
    destruct (session_fires P s); try exact Hdone.
  clear Hdone. rewrite orb_true_r in Hst.
  rewrite (PlayerProps.flush_started P B fuel s1 Hst). cbn [fst].
  destruct Hp1 as (ct1 & Hct1 & Hpa1).
  destruct (commit_pulse s1 (playing s1) ct1) as (Hp2 & _ & Hkeep2);
    [congruence | exact Hpa1 |].
  destruct (commit_frame s1) as (_ & Fa2 & _ & Fc2 & _).
  cbv zeta in Hp2, Hkeep2, Fa2, Fc2.
  specialize (Hkeep2 eq_refl Hct1).
  split; [exact Hp2|]. split; [congruence|]. split; [congruence|].
  rewrite Hkeep2. split; assumption.
Qed.

(** A handler ran on a mounted player and React rendered. *)
Lemma handler_sound (s st : state) (tr0 : trace) (p : bool) :
  Sound P s -> mounted s = true ->
  session_deps st = session_deps s -> sessionStarted st = sessionStarted s ->
  sessionId st = sessionId s -> startTimeRef st = startTimeRef s ->
  now st = now s -> mounted st = mounted s -> timers st = timers s ->
  heartbeat_cleanup st = heartbeat_cleanup s ->
  heartbeat_deps st = heartbeat_deps s ->
  hls_attached st = hls_attached s ->
  playing st = p ->
  let fires := p && negb (sessionStarted s) in
  exists s',
    then_render P B (st, tr0)
    = (s', tr0 ++ (if fires then [(now s, start_call P B s)] else []))
    /\ Sound P s'
    /\ sessionId s' = sessionId s
    /\ now s' = now s
    /\ mounted s' = true
    /\ playing s' = p
    /\ currentTime s' = currentTime st
    /\ hls_attached s' = hls_attached s
    /\ startTimeRef s' = (if fires then now s else startTimeRef s)
    /\ (playing s = false -> p = true ->
        exists tm, timers s' = [tm] /\ due tm = now s + HEARTBEAT_MS).
Proof.
  intros (HI & (ct & Hct & Hpa) & Hun & Hus) Hm Hd Hs Hid Href Hnow Hmt Hts Hcl Hhd
    Hatt Hp fires.
  destruct (PlayerProps.after_handler P B s st tr0 HI Hm Hd Hs Hid Href Hnow Hmt
              Hts Hcl p Hp)
    as (s' & Hr & HI' & Hid' & Hn' & Hm' & Hp' & Hst' & Hsr' & _).
  fold fires in Hr, Hsr'.
  assert (Hs' : s' = fst (flush RERENDERS P B st)).
  { unfold then_render, render in Hr.
    destruct (flush RERENDERS P B st) as [x y]. now injection Hr as <- _. }
  assert (Hpa' : pulse_at (playing s) ct st)
    by (apply (pulse_at_frame _ _ s); assumption).
  destruct (flush_pulse RERENDERS st (playing s) ct) as (Hpulse & Fa & Fc & Harm & _);
    [congruence | exact Hpa' |].
  cbv zeta in Hpulse, Fa, Fc, Harm. rewrite <- Hs' in Hpulse, Fa, Fc, Harm.
  exists s'. split; [exact Hr|].
  split.
  { split; [exact HI'|]. split; [exact Hpulse|]. split.
    - unfold unplugged. rewrite Hm'. discriminate.
    - unfold unstarted in *. rewrite Hst', Hsr'. unfold fires.
      destruct (sessionStarted s), p; cbn; try discriminate. intros _. now apply Hus. }
  split; [exact Hid'|]. split; [exact Hn'|]. split; [exact Hm'|].
  split; [exact Hp'|]. split; [exact Fc|]. split; [congruence|].
  split; [exact Hsr'|].
  intros Hps Hpt. rewrite Hnow in Harm. apply Harm; [congruence | now left].
Qed.


Lemma rearm_due (target t : Z) (tm : timer) :
  t <= target -> t < due tm <= t + HEARTBEAT_MS ->
  target < due (rearm target tm) <= target + HEARTBEAT_MS.
Proof.
  intros Ht Hd. unfold rearm, firings, HEARTBEAT_MS in *. cbn [due].
  destruct (due tm <=? target) eqn:E.
  - apply Z.leb_le in E.
    pose proof (Z.div_mod (target - due tm) 30000 ltac:(lia)) as Hdm.
    pose proof (Z.mod_pos_bound (target - due tm) 30000 ltac:(lia)) as Hr.
    assert (0 <= (target - due tm) / 30000) by (apply Z.div_pos; lia).
    rewrite Nat2Z.inj_succ, Z2Nat.id by assumption. lia.
  - apply Z.leb_gt in E. cbn. lia.
Qed.

Lemma quiet_step (s : state) :
  Sound P s -> Sound P s /\ sessionId s = sessionId s /\ now s = now s + 0
  /\ (hls_attached s = false -> hls_attached s = false)
  /\ (startTimeRef s <= now s -> startTimeRef s <= now s + 0).
Proof.
  intros H. rewrite Z.add_0_r. repeat split; auto; apply H.
Qed.

(** What one event does to a player in a sound state. *)
Lemma step_sound (s : state) (e : event) :
  Sound P s ->
  exists s',
    step P B s e = (s', caused P B s e)
    /\ Sound P s'
    /\ sessionId s' = sessionId s
    /\ now s' = now s + elapsed_by e
    /\ mounted s' = (mounted s && negb (is_Unmount e))
    /\ (hls_attached s = false -> hls_attached s' = false)
    /\ (startTimeRef s <= now s -> startTimeRef s' <= now s').
Proof.
  intros HS. pose proof HS as (HI & (ct & Hct & Hpa) & Hun & Hus).
  pose proof HI as (Hrec & Hidle & Hown & Hdet).
  destruct (quiet_step s HS) as (_ & Q2 & Q3 & Q4 & Q5).
  destruct e as [ | | t | | | data | ms | i | ];
    cbn [step caused elapsed_by is_Unmount negb]; rewrite ?andb_true_r.
  - (* Play *)
    destruct (mounted s) eqn:Hm; [|exists s; cbn [andb]; auto 10].
    destruct (handler_sound s (handlePlay s) [] true HS Hm)
      as (s' & Hr & HS' & Hid & Hn & Hm' & _ & _ & Ha & Hsr & _); try reflexivity.
    exists s'. cbn [andb app] in *. split; [exact Hr|]. split; [exact HS'|].
    rewrite Z.add_0_r. split; [exact Hid|]. split; [exact Hn|]. split; [exact Hm'|].
    split; [congruence|].
    rewrite Hsr, Hn. destruct (negb (sessionStarted s)); lia.
  - (* Pause *)
    destruct (mounted s) eqn:Hm; [|exists s; auto 10].
    destruct (handler_sound s (handlePause s) [] false HS Hm)
      as (s' & Hr & HS' & Hid & Hn & Hm' & _ & _ & Ha & Hsr & _); try reflexivity.
    exists s'. cbn [andb app] in *. split; [exact Hr|]. split; [exact HS'|].
    rewrite Z.add_0_r. split; [exact Hid|]. split; [exact Hn|]. split; [exact Hm'|].
    split; [congruence|]. rewrite Hsr, Hn. auto.
  - (* TimeUpdate *)
    destruct (mounted s) eqn:Hm; [|exists s; auto 10].
    destruct (handler_sound s (handleTimeUpdate t s) [] (playing s) HS Hm)
      as (s' & Hr & HS' & Hid & Hn & Hm' & _ & _ & Ha & Hsr & _); try reflexivity.
    assert (Hnf : playing s && negb (sessionStarted s) = false).
    { unfold idle_paused in Hidle.
      destruct (sessionStarted s); [apply andb_false_r|]. now rewrite Hidle. }
    rewrite Hnf in Hr, Hsr.
    exists s'. cbn [app] in *. split; [exact Hr|]. split; [exact HS'|].
    rewrite Z.add_0_r. split; [exact Hid|]. split; [exact Hn|]. split; [exact Hm'|].
    split; [congruence|]. rewrite Hsr, Hn. auto.
  - (* Ended *)
    destruct (mounted s) eqn:Hm; [|exists s; auto 10].
    destruct (handler_sound s (fst (handleEnded P s)) (snd (handleEnded P s)) false
                HS Hm)
      as (s' & Hr & HS' & Hid & Hn & Hm' & _ & _ & Ha & Hsr & _); try reflexivity.
    exists s'. cbn [andb] in *. rewrite app_nil_r in Hr.
    split; [exact Hr|]. split; [exact HS'|].
    rewrite Z.add_0_r. split; [exact Hid|]. split; [exact Hn|]. split; [exact Hm'|].
    split; [congruence|]. rewrite Hsr, Hn. auto.
  - (* ManifestParsed *)
    exists s. destruct (hls_attached s && autoplay P); auto 10.
  - (* HlsError *)
    destruct (hls_attached s) eqn:Hatt; [|exists s; auto 10].
    eexists. split; [reflexivity|].
    split.
    { split; [split; [|split; [|split]]; assumption|].
      split; [exists ct; split; [exact Hct | exact Hpa]|].
      split; [|exact Hus].
      unfold unplugged in *. cbn. intros Hm. specialize (Hun Hm). congruence. }
    cbn. rewrite Z.add_0_r. repeat split; auto. discriminate.
  - (* Elapse *)
    eexists. split; [unfold elapse; reflexivity|].
    split.
    { split.
      { split; [exact Hrec|]. split; [exact Hidle|]. split.
        - unfold owned, handles, cleanup_handles in *. cbn. rewrite map_map. cbn.
          exact Hown.
        - unfold detached in *. cbn. intros Hm. now rewrite (Hdet Hm). }
      split.
      { exists ct. split; [exact Hct|].
        destruct Hpa as (Hhd & Hts). split; [exact Hhd|]. cbn.
        destruct (mounted s && playing s).
        - destruct Hts as (tm & Hts & Hcl & Hsid & Hcc & Hdue).
          exists (rearm (now s + Z.of_N ms) tm). rewrite Hts. cbn [map].
          split; [reflexivity|]. split; [exact Hcl|]. split; [exact Hsid|].
          split; [exact Hcc|]. apply (rearm_due _ (now s)); [lia | exact Hdue].
        - destruct Hts as (Hts & Hcl). rewrite Hts. split; [reflexivity | exact Hcl]. }
      split; [exact Hun | exact Hus]. }
    cbn. repeat split; auto. lia.
  - (* Settle *)
    eexists. split; [reflexivity|].
    split.
    { split; [split; [|split; [|split]]; assumption|].
      split; [exists ct; split; [exact Hct | exact Hpa]|].
      split; [exact Hun | exact Hus]. }
    cbn. rewrite Z.add_0_r. repeat split; auto.
  - (* Unmount *)
    destruct (mounted s) eqn:Hm; [|exists s; auto 10].
    destruct (PlayerProps.step_spec P B s Unmount HI)
      as (s' & tr & Hstep & HI' & Hid & Hn & Hm' & _).
    cbn [step elapsed_by is_Unmount negb] in Hstep, Hn, Hm'.
    rewrite Hm in Hstep, Hm'. cbn [andb] in *.
    injection Hstep as Hs' Htr.
    eexists. split; [reflexivity|]. rewrite Hs'.
    assert (Hgone : timers s' = [])
      by (destruct HI' as (_ & _ & _ & Hdet'); now apply Hdet').
    assert (Hframe : heartbeat_deps s' = heartbeat_deps s
                     /\ playing s' = playing s /\ currentTime s' = currentTime s
                     /\ heartbeat_cleanup s' = None /\ hls_attached s' = false
                     /\ sessionStarted s' = sessionStarted s
                     /\ startTimeRef s' = startTimeRef s).
    { rewrite <- Hs'. unfold run_heartbeat_cleanup.
      destruct (heartbeat_cleanup s); repeat split. }
    destruct Hframe as (F1 & F2 & F3 & F4 & F5 & F6 & F7).
    split.
    { split; [exact HI'|]. split.
      - exists ct. split; [now rewrite F3|].
        destruct Hpa as (Hhd & _). split; [rewrite F1, F2, Hid; exact Hhd|].
        rewrite Hm'. cbn [andb]. split; assumption.
      - split; [intros _; exact F5|].
        unfold unstarted in *. rewrite F6, F7. exact Hus. }
    split; [exact Hid|]. split; [exact Hn|]. split; [exact Hm'|].
    split; [intros _; exact F5|]. rewrite F7, Hn. lia.
Qed.


(** *** Mounting *)

Lemma mount_sound (t0 : Z) :
  exists s0,
    mount P B t0
    = (s0, if Hls_isSupported B
           then [(t0, hls_loadSource (videoUrl P)); (t0, hls_attachMedia)]
           else if canPlayType_hls B then [(t0, video_set_src (videoUrl P))]
           else [])
    /\ Sound P s0
    /\ mounted s0 = true /\ playing s0 = false /\ sessionStarted s0 = false
    /\ sessionId s0 = generateSessionId B t0
    /\ now s0 = t0 /\ startTimeRef s0 = 0
    /\ hls_attached s0 = Hls_isSupported B
    /\ hls_cleanup s0 = Hls_isSupported B.
Proof.
  unfold mount, then_render, render, RERENDERS. rewrite PlayerProps.flush_S.
  unfold commit, session_effect, heartbeat_effect, run_heartbeat_cleanup.
  cbn -[flush generateSessionId].
  eexists. split; [now rewrite app_nil_r|].
  split.
  { split; [repeat split; cbn; discriminate|].
    split; [exists 0%Q; split; [reflexivity|]; repeat split|].
    split; [unfold unplugged; cbn; discriminate | unfold unstarted; reflexivity]. }
  repeat split.
Qed.

Lemma session_run (t0 : Z) (es : list event) :
  session P B t0 es
  = (fst (run P B (fst (mount P B t0)) es),
     snd (mount P B t0) ++ snd (run P B (fst (mount P B t0)) es)).
Proof.
  unfold session. destruct (mount P B t0) as [s0 tr0].
  cbn [fst snd]. now destruct (run P B s0 es).
Qed.

(** *** Sequences of events *)

Lemma run_sound (Good : state -> Prop) (ok : Z * call -> Prop) :
  (forall s e, Sound P s -> Good s ->
               Good (fst (step P B s e)) /\ Forall ok (caused P B s e)) ->
  forall es s, Sound P s -> Good s ->
    Sound P (fst (run P B s es)) /\ Good (fst (run P B s es))
    /\ Forall ok (snd (run P B s es)).
Proof.
  intros Hstep. induction es as [|e es IH]; intros s HS HG.
  - cbn. auto.
  - destruct (step_sound s e HS) as (s1 & Hs & HS1 & _).
    destruct (Hstep s e HS HG) as (HG1 & Hok). rewrite Hs in HG1. cbn [fst] in HG1.
    destruct (IH s1 HS1 HG1) as (HS2 & HG2 & Hok2).
    cbn [run]. rewrite Hs. destruct (run P B s1 es) as [s2 tr2]. cbn [fst snd] in *.
    split; [exact HS2|]. split; [exact HG2|]. apply Forall_app. now split.
Qed.

Lemma session_sound (t0 : Z) (es : list event) :
  let s := fst (session P B t0 es) in
  Sound P s /\ sessionId s = generateSessionId B t0.
Proof.
  rewrite session_run. cbn [fst].
  destruct (mount_sound t0) as (s0 & Hm & HS0 & _ & _ & _ & Hid & _).
  rewrite Hm. cbn [fst].
  destruct (run_sound (fun s => sessionId s = generateSessionId B t0)
              (fun _ => True)) with (es := es) (s := s0) as (HS & HG & _); auto.
  intros s e HS HG. destruct (step_sound s e HS) as (s1 & Hs & _ & Hid1 & _).
  rewrite Hs. cbn [fst]. split; [congruence|].
  apply Forall_forall. auto.
Qed.

(** *** The timer and what it fires *)

Lemma pulse_timers (s : state) :
  pulse s ->
  if mounted s && playing s
  then exists tm,
         timers s = [tm] /\ closure_sessionId tm = sessionId s
         /\ closure_currentTime tm == currentTime s
         /\ now s < due tm <= now s + HEARTBEAT_MS
  else timers s = [].
Proof.
  intros (ct & Hct & _ & Hts).
  destruct (mounted s && playing s).
  - destruct Hts as (tm & Hts & _ & Hsid & Hcc & Hdue).
    exists tm. repeat split; try assumption; try apply Hdue.
    now rewrite Hcc.
  - apply Hts.
Qed.

Lemma ticks_from (n : nat) (d : Z) (c : call) :
  by_time (map (fun at_ => (at_, c)) (ticks n d))
  = map (fun at_ => (at_, c)) (ticks n d).
Proof.
  revert d. induction n as [|n IH]; intros d; [reflexivity|].
  cbn [ticks map by_time fold_right].
  change (fold_right insert_by_time [] ?l) with (by_time l).
  rewrite IH. destruct n as [|n]; [reflexivity|].
  cbn [ticks map insert_by_time fst].
  replace (d <=? d + HEARTBEAT_MS) with true; [reflexivity|].
  symmetry. apply Z.leb_le. unfold HEARTBEAT_MS. lia.
Qed.

Lemma elapse_one (s : state) (ms : N) (tm : timer) :
  timers s = [tm] ->
  closure_sessionId tm = sessionId s ->
  closure_currentTime tm == currentTime s ->
  snd (elapse ms s)
  = beats (sessionId s) (currentTime s)
      (firings (now s + Z.of_N ms) tm) (due tm).
Proof.
  intros Hts Hsid Hcc. unfold elapse. cbn [snd]. rewrite Hts.
  cbn [flat_map]. rewrite app_nil_r. unfold timer_trace, heartbeat_call, beats.
  rewrite ticks_from, Hsid.
  now rewrite (Qfloor_comp _ _ Hcc).
Qed.

Lemma elapse_none (s : state) (ms : N) :
  timers s = [] -> snd (elapse ms s) = [].
Proof. intros Hts. unfold elapse. cbn [snd]. now rewrite Hts. Qed.

Lemma beats_calls (sid : string) (position : Q) (n : nat) (first : Z)
    (ok : Z * call -> Prop) :
  (forall at_, ok (at_, sendHeartbeat sid (Qfloor position))) ->
  Forall ok (beats sid position n first).
Proof.
  intros H. unfold beats. apply Forall_map, Forall_forall. intros at_ _. apply H.
Qed.

(** The calls one event causes, whatever they are, satisfy [ok] when the
    analytics calls on the state's session and the pipeline calls do. *)
Lemma caused_calls (s : state) (e : event) (ok : Z * call -> Prop) :
  Sound P s ->
  (forall t, ok (t, start_call P B s)) ->
  (forall t, ok (t, sendHeartbeat (sessionId s) (Qfloor (currentTime s)))) ->
  (mounted s = true ->
   ok (now s, endSession (sessionId s) ((now s - startTimeRef s) / 1000))) ->
  (forall t, ok (t, onEnded)) ->
  (hls_attached s = true ->
   forall t c, uses_pipeline c = true \/ c = hls_destroy -> ok (t, c)) ->
  (forall t, ok (t, hls_destroy)) ->
  Forall ok (caused P B s e).
Proof.
  intros HS Hstart Hbeat Hend Hcb Hpipe Hdestroy.
  destruct e as [ | | t | | | data | ms | i | ]; cbn [caused]; try constructor.
  - destruct (mounted s && negb (sessionStarted s)); repeat constructor. apply Hstart.
  - destruct (mounted s) eqn:Hm; [|constructor]. unfold handleEnded. cbn [snd].
    constructor; [now apply Hend|].
    destruct (has_onEnded P); repeat constructor. apply Hcb.
  - destruct (hls_attached s) eqn:Ha; [|constructor].
    destruct (autoplay P); cbn; repeat constructor. apply Hpipe; auto.
  - destruct (hls_attached s) eqn:Ha; [|constructor].
    unfold on_hls_error. destruct (fatal data); [|constructor].
    destruct (type data); cbn; repeat constructor; apply Hpipe; auto.
  - pose proof (pulse_timers s (proj1 (proj2 HS))) as Hts.
    destruct (mounted s && playing s).
    + destruct Hts as (tm & Hts & Hsid & Hcc & _).
      rewrite (elapse_one s ms tm Hts Hsid Hcc). now apply beats_calls.
    + rewrite (elapse_none s ms Hts). constructor.
  - destruct (mounted s && hls_cleanup s); repeat constructor. apply Hdestroy.
Qed.


(** The HLS effect's cleanup is registered at mount and stays registered. *)
Lemma render_keeps_cleanup (st : state) (tr : trace) :
  hls_cleanup (fst (then_render P B (st, tr))) = hls_cleanup st.
Proof.
  unfold then_render.
  destruct (PlayerProps.render_spec P B st) as (s' & Hr & Hv & _).
  rewrite Hr. cbn [fst]. apply Hv.
Qed.

Lemma step_keeps_cleanup (s : state) (e : event) :
  hls_cleanup (fst (step P B s e)) = hls_cleanup s.
Proof.
  destruct e as [ | | t | | | data | ms | i | ]; cbn [step];
    try (destruct (mounted s); [|reflexivity]);
    try (rewrite render_keeps_cleanup; reflexivity);
    try reflexivity.
  - unfold handleEnded. now rewrite render_keeps_cleanup.
  - now destruct (hls_attached s && autoplay P).
  - now destruct (hls_attached s).
  - cbn. unfold run_heartbeat_cleanup. now destruct (heartbeat_cleanup s).
Qed.

Lemma endSession_calls_app (a b : trace) :
  endSession_calls (a ++ b) = endSession_calls a ++ endSession_calls b.
Proof.
  unfold endSession_calls. now rewrite PlayerProps.calls_app, filter_app.
Qed.

Lemma only_heartbeats_no_end (tr : trace) :
  only_heartbeats tr -> endSession_calls tr = [].
Proof.
  unfold endSession_calls, calls.
  induction 1 as [|[t c] l Hx Hl IH]; cbn in *; [reflexivity|].
  destruct c; try discriminate. exact IH.
Qed.

Lemma caused_endSession (s : state) (e : event) :
  length (endSession_calls (caused P B s e))
  = (if mounted s && is_Ended e then 1 else 0)%nat.
Proof.
  destruct e as [ | | t | | | data | ms | i | ];
    cbn [caused is_Ended]; rewrite ?andb_false_r, ?andb_true_r; try reflexivity.
  - destruct (mounted s && negb (sessionStarted s)); reflexivity.
  - destruct (mounted s); [|reflexivity]. unfold handleEnded. cbn [snd].
    destruct (has_onEnded P); reflexivity.
  - destruct (hls_attached s && autoplay P); reflexivity.
  - destruct (hls_attached s); [|reflexivity].
    unfold on_hls_error. destruct (fatal data); [|reflexivity].
    destruct (type data); reflexivity.
  - rewrite only_heartbeats_no_end; [reflexivity | apply PlayerProps.elapse_only].
  - destruct (mounted s && hls_cleanup s); reflexivity.
Qed.

Lemma run_endSession (es : list event) :
  forall s, Sound P s ->
    length (endSession_calls (snd (run P B s es))) = ended_mounted (mounted s) es.
Proof.
  induction es as [|e es IH]; intros s HS; [reflexivity|].
  destruct (step_sound s e HS) as (s1 & Hs & HS1 & _ & _ & Hm1 & _).
  cbn [run ended_mounted]. rewrite Hs.
  specialize (IH s1 HS1). destruct (run P B s1 es) as [s2 tr2]. cbn [snd] in *.
  rewrite endSession_calls_app, length_app, caused_endSession, IH, Hm1.
  reflexivity.
Qed.

Lemma run_unmounted (more : list event) :
  forall s, Sound P s -> mounted s = false -> snd (run P B s more) = [].
Proof.
  induction more as [|e more IH]; intros s HS Hm; [reflexivity|].
  destruct (step_sound s e HS) as (s1 & Hs & HS1 & _ & _ & Hm1 & _).
  cbn [run]. rewrite Hs.
  rewrite Hm in Hm1. cbn [andb] in Hm1.
  specialize (IH s1 HS1 Hm1). destruct (run P B s1 more) as [s2 tr2].
  cbn [snd] in *. subst tr2. rewrite app_nil_r.
  pose proof HS as (_ & Hpulse & Hun & _).
  pose proof (pulse_timers s Hpulse) as Hts. rewrite Hm in Hts. cbn [andb] in Hts.
  destruct e; cbn [caused]; rewrite ?Hm, ?(Hun Hm); try reflexivity.
  now apply elapse_none.
Qed.

End Player.

(** ** Properties of sessions *)

(** X15. Every analytics call a player makes between mount and unmount
    names the session identifier generated at mount; the session start also
    names the content and the host's metadata.  No call ever names another
    session. *)
Theorem calls_carry_mount_session (P : props) (B : host) (t0 : Z)
    (es : list event) :
  Forall (fun x =>
            match snd x with
            | startSession cid sid m =>
                cid = string_of_Z (contentId P)
                /\ sid = generateSessionId B t0 /\ m = session_metadata B
            | sendHeartbeat sid _ | endSession sid _ => sid = generateSessionId B t0
            | _ => True
            end)
    (snd (session P B t0 es)).
Proof.
  rewrite session_run. cbn [snd].
  destruct (mount_sound P B t0) as (s0 & Hm & HS0 & _ & _ & _ & Hid & _).
  rewrite Hm. cbn [fst snd]. apply Forall_app. split.
  { destruct (Hls_isSupported B); [repeat constructor|].
    destruct (canPlayType_hls B); repeat constructor. }
  apply (run_sound P B (fun s => sessionId s = generateSessionId B t0)); auto.
  intros s e HS HG.
  destruct (step_sound P B s e HS) as (s1 & Hs & _ & Hid1 & _).
  rewrite Hs. cbn [fst]. split; [congruence|].
  apply caused_calls; try exact HS; cbn [snd]; unfold start_call; auto.
  intros _ t c [Hc | ->]; [|exact I]. destruct c; try discriminate; exact I.
Qed.

(** X16. At every moment of a player's life, a heartbeat timer is armed
    exactly when the player is mounted and playing, and then exactly one;
    it is bound to the mount's session and to the position currently
    shown, and is due within the next 30 seconds. *)
Theorem timer_follows_playback (P : props) (B : host) (t0 : Z) (es : list event) :
  let s := fst (session P B t0 es) in
  length (timers s) = (if mounted s && playing s then 1 else 0)%nat
  /\ Forall (fun tm =>
               closure_sessionId tm = generateSessionId B t0
               /\ closure_currentTime tm == currentTime s
               /\ now s < due tm <= now s + HEARTBEAT_MS)
       (timers s).
Proof.
  destruct (session_sound P B t0 es) as ((_ & Hpulse & _) & Hid).
  cbv zeta. pose proof (pulse_timers _ Hpulse) as Hts.
  destruct (mounted _ && playing _).
  - destruct Hts as (tm & -> & Hsid & Hcc & Hdue).
    split; [reflexivity|]. repeat constructor; try apply Hdue; congruence.
  - rewrite Hts. split; [reflexivity | constructor].
Qed.

(** X17. When time passes on a mounted, playing player, heartbeats go out
    at the timer's due time and every 30 seconds after it, each reporting
    the mount's session and the whole seconds of the position currently
    shown; and when the player is paused or unmounted, the passing of time
    causes no call at all. *)
Theorem heartbeat_cadence (P : props) (B : host) (t0 : Z) (es : list event)
    (ms : N) :
  let s := fst (session P B t0 es) in
  if mounted s && playing s
  then exists tm,
         timers s = [tm]
         /\ snd (step P B s (Elapse ms))
            = beats (generateSessionId B t0) (currentTime s)
                (firings (now s + Z.of_N ms) tm) (due tm)
  else snd (step P B s (Elapse ms)) = [].
Proof.
  destruct (session_sound P B t0 es) as ((_ & Hpulse & _) & Hid).
  cbv zeta. pose proof (pulse_timers _ Hpulse) as Hts.
  cbn [step]. destruct (mounted _ && playing _).
  - destruct Hts as (tm & Hts & Hsid & Hcc & _).
    exists tm. split; [exact Hts|].
    rewrite (elapse_one _ ms tm Hts Hsid Hcc). now rewrite Hid.
  - now apply elapse_none.
Qed.

(** X18. Starting playback on a mounted, paused player and then letting
    [ms] milliseconds pass with no position update sends the session start
    (if the session was not started yet) and then one heartbeat per full
    30 seconds, the first one 30 seconds after the play event, each
    reporting the position shown when playback started. *)
Theorem stalled_playback_heartbeats (P : props) (B : host) (t0 : Z)
    (es : list event) (ms : N) :
  let s := fst (session P B t0 es) in
  mounted s = true -> playing s = false ->
  snd (run P B s [Play; Elapse ms])
  = (if sessionStarted s then [] else [(now s, start_call P B s)])
    ++ beats (generateSessionId B t0) (currentTime s)
         (Z.to_nat (Z.of_N ms / HEARTBEAT_MS)) (now s + HEARTBEAT_MS).
Proof.
  destruct (session_sound P B t0 es) as (HS & Hid).
  cbv zeta. set (s := fst (session P B t0 es)) in *. intros Hm Hp.
  destruct (handler_sound P B s (handlePlay s) [] true HS Hm)
    as (s1 & Hr & HS1 & Hid1 & Hn1 & Hm1 & Hp1 & Hc1 & _ & _ & Harm);
    try reflexivity.
  destruct (Harm Hp eq_refl) as (tm & Hts & Hdue).
  pose proof (pulse_timers s1 (proj1 (proj2 HS1))) as Hts1.
  rewrite Hm1, Hp1, Hts in Hts1. cbn [andb] in Hts1.
  destruct Hts1 as (tm' & [= <-] & Hsid & Hcc & _).
  assert (Hstep : step P B s Play
                  = (s1, if negb (sessionStarted s)
                         then [(now s, start_call P B s)] else []))
    by (cbn [step]; rewrite Hm; exact Hr).
  cbn [run]. rewrite Hstep. cbn [step].
  pose proof (elapse_one s1 ms tm Hts Hsid Hcc) as He.
  destruct (elapse ms s1) as [s2 tr2]. cbn [snd] in He. subst tr2.
  cbn [snd]. rewrite app_nil_r.
  replace (if negb (sessionStarted s) then [(now s, start_call P B s)] else [])
    with (if sessionStarted s then [] else [(now s, start_call P B s)])
    by (now destruct (sessionStarted s)).
  apply f_equal.
  rewrite Hid1, Hid, Hc1, Hdue.
  change (currentTime (handlePlay s)) with (currentTime s).
  apply (f_equal (fun n => beats _ _ n _)). unfold firings. rewrite Hdue, Hn1. unfold HEARTBEAT_MS.
  destruct (now s + 30000 <=? now s + Z.of_N ms) eqn:E.
  - apply Z.leb_le in E.
    replace (now s + Z.of_N ms - (now s + 30000)) with (Z.of_N ms + (-1) * 30000)
      by lia.
    rewrite Z.div_add by lia.
    assert (1 <= Z.of_N ms / 30000) by (apply Z.div_le_lower_bound; lia).
    lia.
  - apply Z.leb_gt in E. rewrite Z.div_small by lia. reflexivity.
Qed.

(** X19. A session is ended by 'ended' events and by nothing else: the
    number of [endSession] calls a player makes equals the number of
    'ended' events that reach it before unmount.  In particular unmounting
    ends no session. *)
Theorem endSession_only_on_ended (P : props) (B : host) (t0 : Z)
    (es : list event) :
  length (endSession_calls (snd (session P B t0 es))) = ended_mounted true es.
Proof.
  rewrite session_run. cbn [snd].
  destruct (mount_sound P B t0) as (s0 & Hm & HS0 & Hmt & _).
  rewrite Hm. cbn [fst snd].
  rewrite endSession_calls_app, length_app, (run_endSession P B es s0 HS0), Hmt.
  destruct (Hls_isSupported B); [reflexivity|].
  destruct (canPlayType_hls B); reflexivity.
Qed.

(** X20. Once the player has been unmounted, nothing that happens
    afterwards makes it call anything: no analytics call, no pipeline call,
    no callback. *)
Theorem unmounted_player_is_inert (P : props) (B : host) (t0 : Z)
    (es more : list event) :
  existsb is_Unmount es = true ->
  snd (run P B (fst (session P B t0 es)) more) = [].
Proof.
  intros Hu.
  destruct (session_sound P B t0 es) as (HS & _). cbv zeta in HS.
  destruct (PlayerProps.session_spec P B t0 es) as (s & tr & Hs & _ & _ & Hm & _).
  rewrite Hs in *. cbn [fst] in *. rewrite Hu in Hm.
  now apply run_unmounted.
Qed.

(** X21. An 'ended' event that reaches a player on which playback never
    started reports, as watch time, the whole seconds of the clock itself
    (the start instant is still zero), under the mount's session. *)
Theorem ended_before_play_reports_clock (P : props) (B : host) (t0 : Z)
    (es : list event) :
  existsb is_Unmount es = false -> existsb is_Play es = false ->
  let s := fst (session P B t0 es) in
  snd (step P B s Ended)
  = (now s, endSession (generateSessionId B t0) (now s / 1000))
      :: (if has_onEnded P then [(now s, onEnded)] else []).
Proof.
  intros Hu Hp.
  destruct (session_sound P B t0 es) as (HS & Hid). cbv zeta in HS, Hid.
  destruct (PlayerProps.session_spec P B t0 es)
    as (s & tr & Hs & _ & _ & Hm & Hst & _).
  rewrite Hs in *. cbn [fst] in *.
  rewrite Hu in Hm. rewrite (PlayerProps.plays_mounted_no_unmount es Hu), Hp in Hst.
  destruct (step_sound P B s Ended HS) as (s1 & Hstep & _).
  rewrite Hstep. cbn [snd caused]. rewrite Hm. unfold handleEnded. cbn [snd].
  destruct HS as (_ & _ & _ & Hus). rewrite (Hus Hst), Z.sub_0_r, Hid.
  reflexivity.
Qed.

(** X22. Once the streaming pipeline is gone (it was destroyed after an
    unrecoverable error, or never created), no later event makes the player
    load, attach, restart, recover or play through it. *)
Theorem lost_pipeline_stays_down (P : props) (B : host) (t0 : Z)
    (es more : list event) :
  let s := fst (session P B t0 es) in
  hls_attached s = false ->
  Forall (fun x => uses_pipeline (snd x) = false) (snd (run P B s more)).
Proof.
  destruct (session_sound P B t0 es) as (HS & _). cbv zeta in *. intros Ha.
  apply (run_sound P B (fun s => hls_attached s = false)); auto.
  intros s e HS' HG.
  destruct (step_sound P B s e HS') as (s1 & Hs & _ & _ & _ & _ & Hk & _).
  rewrite Hs. cbn [fst]. split; [auto|].
  apply caused_calls; try exact HS'; cbn [snd]; auto.
  intros Hc. congruence.
Qed.

(** X23. With a clock that is not negative at mount, no [endSession] call
    ever reports a negative watch time. *)
Theorem watch_time_never_negative (P : props) (B : host) (t0 : Z)
    (es : list event) :
  0 <= t0 ->
  Forall (fun x => forall sid w, snd x = endSession sid w -> 0 <= w)
    (snd (session P B t0 es)).
Proof.
  intros Ht. rewrite session_run. cbn [snd].
  destruct (mount_sound P B t0) as (s0 & Hm & HS0 & _ & _ & _ & _ & Hn & Hr & _).
  rewrite Hm. cbn [fst snd]. apply Forall_app. split.
  { destruct (Hls_isSupported B); [repeat constructor; discriminate|].
    destruct (canPlayType_hls B); repeat constructor; discriminate. }
  apply (run_sound P B (fun s => startTimeRef s <= now s)); [|exact HS0|lia].
  intros s e HS HG.
  destruct (step_sound P B s e HS) as (s1 & Hs & _ & _ & _ & _ & _ & Hk).
  rewrite Hs. cbn [fst]. split; [auto|].
  apply caused_calls; try exact HS; cbn [snd]; unfold start_call;
    try discriminate.
  - intros _ sid w [= _ <-]. apply Z.div_pos; lia.
  - intros _ t c [Hc | ->]; [|discriminate]. destruct c; discriminate.
Qed.

(** X24. The streaming pipeline has one life: at mount it is created and
    fed (load the source, then attach the element) exactly when hls.js is
    supported, otherwise the element gets the URL itself if it can play HLS
    natively, otherwise nothing happens; and the first unmount destroys the
    pipeline exactly when one was created, after which nothing more is
    called. *)
Theorem pipeline_lifecycle (P : props) (B : host) (t0 : Z)
    (pre post : list event) :
  existsb is_Unmount pre = false ->
  let s := fst (session P B t0 pre) in
  snd (mount P B t0)
  = (if Hls_isSupported B
     then [(t0, hls_loadSource (videoUrl P)); (t0, hls_attachMedia)]
     else if canPlayType_hls B then [(t0, video_set_src (videoUrl P))]
     else [])
  /\ snd (run P B s (Unmount :: post))
     = (if Hls_isSupported B then [(now s, hls_destroy)] else []).
Proof.
  intros Hu. cbv zeta.
  destruct (mount_sound P B t0) as (s0 & Hm & HS0 & Hmt & M).
  assert (Hcl0 : hls_cleanup s0 = Hls_isSupported B) by apply M.
  split; [now rewrite Hm|].
  rewrite session_run, Hm. cbn [fst].
  destruct (run_sound P B (fun s => hls_cleanup s = Hls_isSupported B)
              (fun _ => True)) with (es := pre) (s := s0) as (HS & Hcl & _); auto.
  { intros s e _ HG. rewrite step_keeps_cleanup. split; [exact HG|].
    apply Forall_forall. auto. }
  destruct (PlayerProps.run_spec P B pre s0 [] (proj1 HS0))
    as (s & tr & Hr & _ & _ & Hmt' & _).
  { destruct HS0 as (_ & _ & _ & Hus). intros H.
    destruct (mount_sound P B t0) as (s0' & Hm' & _ & _ & _ & Hst & _).
    rewrite Hm in Hm'. injection Hm' as <-. congruence. }
  rewrite Hr in *. cbn [fst] in *. rewrite Hmt, Hu in Hmt'. cbn in Hmt'.
  destruct (step_sound P B s Unmount HS) as (s1 & Hstep & HS1 & _ & _ & Hm1 & _).
  cbn [run]. rewrite Hstep.
  rewrite Hmt' in Hm1. cbn in Hm1.
  pose proof (run_unmounted P B post s1 HS1 Hm1) as Hq.
  destruct (run P B s1 post) as [s2 tr2]. cbn [snd] in *. subst tr2.
  rewrite app_nil_r. cbn [caused]. now rewrite Hmt', Hcl.
Qed.

Lemma list_ascii_of_append (a b : string) :
  list_ascii_of_string (a ++ b)%string
  = list_ascii_of_string a ++ list_ascii_of_string b.
Proof. induction a as [|c a IH]; cbn; [reflexivity | now rewrite IH]. Qed.

Lemma append_cancel_r (a b c : string) :
  (a ++ c)%string = (b ++ c)%string -> a = b.
Proof.
  intros H. apply (f_equal list_ascii_of_string) in H.
  rewrite !list_ascii_of_append in H. apply app_inv_tail in H.
  rewrite <- (string_of_list_ascii_of_string a),
    <- (string_of_list_ascii_of_string b). now rewrite H.
Qed.

Lemma to_int_printable (z : Z) :
  Z.to_int z <> Decimal.Pos Decimal.Nil /\ Z.to_int z <> Decimal.Neg Decimal.Nil.
Proof.
  pose proof (DecimalZ.to_of (Z.to_int z)) as H. rewrite DecimalZ.of_to in H.
  split; intros E; rewrite E in H; discriminate H.
Qed.

Lemma string_of_Z_inj (a b : Z) : string_of_Z a = string_of_Z b -> a = b.
Proof.
  unfold string_of_Z. intros H.
  apply (f_equal NilZero.int_of_string) in H.
  destruct (to_int_printable a), (to_int_printable b).
  rewrite !NilZero.isi in H by assumption.
  injection H as H. now apply DecimalZ.to_int_inj.
Qed.

(** X25. Session identifiers generated at different instants differ, even
    when the random suffix happens to repeat: two players mounted at
    different milliseconds never share a session. *)
Theorem session_ids_differ_over_time (B : host) (t1 t2 : Z) :
  t1 <> t2 -> generateSessionId B t1 <> generateSessionId B t2.
Proof.
  intros Hne H. apply Hne. unfold generateSessionId in H.
  injection H as H.
  apply append_cancel_r in H. now apply string_of_Z_inj.
Qed.

(** ** Instances *)

Import Samples.

Lemma pipeline_lifecycle_witness :
  snd (run page_props desktop
         (fst (session page_props desktop 0 [Play; Elapse 1000]))
         (Unmount :: [Play; Unmount]))
  = (if Hls_isSupported desktop
     then [(now (fst (session page_props desktop 0 [Play; Elapse 1000])),
            hls_destroy)]
     else []).
Proof.
  exact (proj2 (pipeline_lifecycle page_props desktop 0 [Play; Elapse 1000]
                  [Play; Unmount] eq_refl)).
Defined.

Lemma session_ids_differ_over_time_witness :
  generateSessionId desktop 1700000000000 <> generateSessionId desktop 1700000000001.
Proof.
  apply (session_ids_differ_over_time desktop 1700000000000 1700000000001).
  discriminate.
Defined.

Lemma stalled_playback_heartbeats_witness :
  snd (run page_props desktop (fst (session page_props desktop 0 []))
         [Play; Elapse 95000])
  = (if sessionStarted (fst (session page_props desktop 0 [])) then []
     else [(now (fst (session page_props desktop 0 [])),
            start_call page_props desktop (fst (session page_props desktop 0 [])))])
    ++ beats (generateSessionId desktop 0)
         (currentTime (fst (session page_props desktop 0 [])))
         (Z.to_nat (Z.of_N 95000 / HEARTBEAT_MS))
         (now (fst (session page_props desktop 0 [])) + HEARTBEAT_MS).
Proof.
  exact (stalled_playback_heartbeats page_props desktop 0 [] 95000 eq_refl eq_refl).
Defined.

Lemma unmounted_player_is_inert_witness :
  snd (run page_props desktop
         (fst (session page_props desktop 0 [Play; Unmount]))
         [Play; Elapse 60000; Ended; Unmount])
  = [].
Proof.
  exact (unmounted_player_is_inert page_props desktop 0 [Play; Unmount]
           [Play; Elapse 60000; Ended; Unmount] eq_refl).
Defined.

Lemma ended_before_play_reports_clock_witness :
  snd (step page_props desktop
         (fst (session page_props desktop 1700000000000 [Elapse 5000])) Ended)
  = (now (fst (session page_props desktop 1700000000000 [Elapse 5000])),
     endSession (generateSessionId desktop 1700000000000)
       (now (fst (session page_props desktop 1700000000000 [Elapse 5000])) / 1000))
      :: (if has_onEnded page_props
          then [(now (fst (session page_props desktop 1700000000000 [Elapse 5000])),
                 onEnded)]
          else []).
Proof.
  exact (ended_before_play_reports_clock page_props desktop 1700000000000
           [Elapse 5000] eq_refl eq_refl).
Defined.

Lemma lost_pipeline_stays_down_witness :
  Forall (fun x => uses_pipeline (snd x) = false)
    (snd (run page_props desktop
            (fst (session page_props desktop 0
                    [HlsError {| fatal := true; type := OTHER_ERROR |}]))
            [HlsError {| fatal := true; type := NETWORK_ERROR |}; ManifestParsed])).
Proof.
  exact (lost_pipeline_stays_down page_props desktop 0
           [HlsError {| fatal := true; type := OTHER_ERROR |}]
           [HlsError {| fatal := true; type := NETWORK_ERROR |}; ManifestParsed]
           eq_refl).
Defined.

Lemma watch_time_never_negative_witness :
  Forall (fun x => forall sid w, snd x = endSession sid w -> 0 <= w)
    (snd (session page_props desktop 0 [Play; Elapse 4000; Ended])).
Proof.
  apply (watch_time_never_negative page_props desktop 0 [Play; Elapse 4000; Ended]).
  vm_compute. discriminate.
Defined.

End PlayerMore.
